(** * video2frame: frame sampling, per-video processing and the ingestion driver

    A shallow embedding of [video2frame.py] and of the read-path loader
    [examples/pytorch_hdf5_video_dataset.py].

    Conventions of the embedding.
    - Python [int] is [Z]. A [float] is the rational number it stands
      for, a [Q]: a division or a multiplication of floats delivers the
      binary64 number nearest to the exact result, ties to the even
      significand ([Py.float_of]). Integers are kept exact (Python
      converts an [int] exactly up to 2^53, more than a list holds), and
      the exponent is not bounded (no overflow, no subnormal numbers: the
      quotients and products of list lengths are far from both).
    - A raised exception is the [Raise] case of [result]; every exception
      class that occurs derives from Python's [Exception].
    - [pathlib] paths are an anchor flag and a list of components.
    - The transcoder, the file system, the two database engines and the
      random source are outside the repository: code that talks to them
      is a [prog], a tree of requests, run against an arbitrary handler. *)

From Stdlib Require Import ZArith QArith Qpower List Ascii String DecimalString
  DecimalPos Permutation Sorted Lia Lqa Bool.
From Stdlib Require Floats.SpecFloat.
From stdpp Require Import base list strings gmap sorting.
Import ListNotations.

Local Open Scope string_scope.
Local Open Scope list_scope.
Local Open Scope Z_scope.

(** ** Exceptions and results *)

Inductive exn_class :=
  | AssertionError | RuntimeError | AttributeError | ValueError
  | TypeError | IndexError | KeyError | OSError.

Record exn := Exn { exn_cls : exn_class; exn_msg : string }.

Inductive result (A : Type) : Type :=
  | Ok (a : A)
  | Raise (e : exn).
Arguments Ok {A} a.
Arguments Raise {A} e.

Definition rbind {A B} (r : result A) (f : A -> result B) : result B :=
  match r with
  | Ok a => f a
  | Raise e => Raise e
  end.

Fixpoint rmapM {A B} (f : A -> result B) (l : list A) : result (list B) :=
  match l with
  | [] => Ok []
  | x :: t => rbind (f x) (fun y => rbind (rmapM f t) (fun ys => Ok (y :: ys)))
  end.

(** ** Python built-ins used by the program *)

Module Py.

(** [str(n)] for an [int]. *)
Definition str_of_Z (z : Z) : string := NilZero.string_of_int (Z.to_int z).

Fixpoint zeros (n : nat) : string :=
  match n with
  | O => ""
  | S m => String "0" (zeros m)
  end.

Definition zfill (w : nat) (s : string) : string :=
  zeros (w - String.length s) +:+ s.

(** ["{:08d}".format(z)]: sign-aware zero padding to width 8. *)
Definition fmt08d (z : Z) : string :=
  if z <? 0 then "-" +:+ zfill 7 (str_of_Z (- z)) else zfill 8 (str_of_Z z).

(** The ASCII characters that [int] strips as white space. *)
Definition is_space (c : ascii) : bool :=
  let n := nat_of_ascii c in
  ((9 <=? n)%nat && (n <=? 13)%nat) || ((28 <=? n)%nat && (n <=? 32)%nat).

Definition digit_of (c : ascii) : option Z :=
  let n := nat_of_ascii c in
  if ((48 <=? n)%nat && (n <=? 57)%nat)%bool then Some (Z.of_nat (n - 48)) else None.

(** Digits with single underscores between them, as [int] accepts. *)
Fixpoint parse_digits (cs : list ascii) (acc : Z) (after_digit : bool) : option Z :=
  match cs with
  | [] => if after_digit then Some acc else None
  | c :: cs' =>
      match digit_of c with
      | Some d => parse_digits cs' (10 * acc + d) true
      | None =>
          if (Ascii.eqb c "_" && after_digit)%bool
          then parse_digits cs' acc false
          else None
      end
  end.

Fixpoint drop_spaces (cs : list ascii) : list ascii :=
  match cs with
  | c :: cs' => if is_space c then drop_spaces cs' else cs
  | [] => []
  end.

Definition strip (cs : list ascii) : list ascii :=
  rev (drop_spaces (rev (drop_spaces cs))).

(** [int(s)] for a [str] in base 10 (ASCII digits); [None] is the
    [ValueError]. *)
Definition int_of_str (s : string) : option Z :=
  match strip (list_ascii_of_string s) with
  | "-"%char :: cs => option_map Z.opp (parse_digits cs 0 false)
  | "+"%char :: cs => parse_digits cs 0 false
  | cs => parse_digits cs 0 false
  end.

(** [int(x)] where [x] is a [str] or [None]. *)
Definition int (x : option string) : result Z :=
  match x with
  | None => Raise (Exn TypeError "int() argument must be a string, a bytes-like object or a real number, not 'NoneType'")
  | Some s =>
      match int_of_str s with
      | Some z => Ok z
      | None => Raise (Exn ValueError ("invalid literal for int() with base 10: '" +:+ s +:+ "'"))
      end
  end.

(** [range(n)] *)
Definition range (n : Z) : list Z := map Z.of_nat (seq 0 (Z.to_nat n)).

(** [l[i]] with Python's negative indices and [IndexError]. *)
Definition index {A} (l : list A) (i : Z) : result A :=
  let n := Z.of_nat (length l) in
  let j := if i <? 0 then i + n else i in
  if ((0 <=? j) && (j <? n))%bool
  then match l !! Z.to_nat j with
       | Some x => Ok x
       | None => Raise (Exn IndexError "list index out of range")
       end
  else Raise (Exn IndexError "list index out of range").

(** [round(q)] with one argument: the nearest integer, ties to the even one. *)
Definition round (q : Q) : Z :=
  let d := Z.pos (Qden q) in
  let f := Qnum q / d in
  let r := Qnum q mod d in
  match 2 * r ?= d with
  | Lt => f
  | Gt => f + 1
  | Eq => if Z.even f then f else f + 1
  end.

(** The binary64 number nearest to a positive real [q], ties to the even
    significand: [q] is scaled by a power of two into the range of the
    53-bit significands, from [2 ** 52] up to [2 ** 53], rounded to an
    integer there, and scaled back. *)
Definition round53 (q : Q) : Q :=
  let e := Z.log2 (Qnum q) - Z.log2 (Z.pos (Qden q)) - 53 in
  let e := if Qlt_le_dec (q / 2 ^ e) (2 ^ 53) then e else e + 1 in
  (inject_Z (round (q / 2 ^ e)) * 2 ^ e)%Q.

(** The [float] that an arithmetic operation delivers when its exact
    result is [q], as a fraction in lowest terms: [q] itself when it is
    an integer, the nearest binary64 number otherwise. *)
Definition float_of (q : Q) : Q :=
  let q := Qred q in
  if Qnum q mod Z.pos (Qden q) =? 0 then q
  else if 0 <? Qnum q then round53 q
  else (- round53 (- q))%Q.

(** The relative precision of binary64, [2 ** -53]. *)
Definition eps : Q := 1 # 9007199254740992.

(** [l[::k]] for a positive stride: [skip] elements are passed over
    before the next one is kept. *)
Fixpoint stride_from {A} (k skip : nat) (l : list A) : list A :=
  match l with
  | [] => []
  | x :: t =>
      match skip with
      | O => x :: stride_from k (k - 1) t
      | S s => stride_from k s t
      end
  end.

Definition slice_step {A} (l : list A) (k : Z) : list A :=
  stride_from (Z.to_nat k) 0 l.

(** [l.sort(key=...)]: the sort is stable; insertion after the last
    element with a key that is not greater keeps equal keys in order. *)
Fixpoint insert_by {A} (key : A -> Z) (x : A) (l : list A) : list A :=
  match l with
  | [] => [x]
  | y :: t => if key x <? key y then x :: y :: t else y :: insert_by key x t
  end.

Definition sort_by {A} (key : A -> Z) (l : list A) : list A :=
  foldl (fun acc x => insert_by key x acc) [] l.

(** [s.split(sep)] for a one-character separator. *)
Fixpoint split_on (sep : ascii) (s : string) : list string :=
  match s with
  | EmptyString => [""]
  | String c s' =>
      if Ascii.eqb c sep then "" :: split_on sep s'
      else match split_on sep s' with
           | w :: ws => String c w :: ws
           | [] => [String c ""]
           end
  end.

End Py.

(** ** [pathlib] paths *)

Record Path := MkPath { is_abs : bool; comps : list string }.

#[global] Instance Path_eq_dec : EqDecision Path.
Proof. solve_decision. Defined.

Module Pathlib.

Definition starts_with_slash (s : string) : bool :=
  match s with
  | String c _ => Ascii.eqb c "/"
  | EmptyString => false
  end.

Definition keep_comp (c : string) : bool :=
  negb (String.eqb c "" || String.eqb c ".").

(** [Path(s)]: empty and ["."] components are dropped. (A root of two
    slashes is not told apart from a root of one.) *)
Definition of_str (s : string) : Path :=
  {| is_abs := starts_with_slash s;
     comps := List.filter keep_comp (Py.split_on "/" s) |}.

(** [p.name]: the final component, [""] when there is none. *)
Definition name (p : Path) : string := List.last (comps p) "".

(** [p / q]: an absolute right operand replaces the left one. *)
Definition join (p q : Path) : Path :=
  if is_abs q then q
  else {| is_abs := is_abs p; comps := comps p ++ comps q |}.

Fixpoint concat_sep (l : list string) : string :=
  match l with
  | [] => ""
  | [c] => c
  | c :: t => c +:+ "/" +:+ concat_sep t
  end.

(** [str(p)] *)
Definition to_str (p : Path) : string :=
  match is_abs p, comps p with
  | false, [] => "."
  | false, cs => concat_sep cs
  | true, cs => "/" +:+ concat_sep cs
  end.

End Pathlib.

(** ** Command-line arguments, after [parse_args] *)

Inductive db_kind := LMDB | HDF5.

Record Args := {
  annotation_file : string;
  db_name : string;
  tmp_dir : string;
  db_type : db_kind;
  vf_setting : list string;
  sample_mode : Z;
  sample : option string;
  threads : Z;
  not_remove : bool
}.

(** A frame as [video_to_frames] lists it: the number parsed from the
    file name, and the path of the file. *)
Definition frame : Type := Z * Path.

(** ** [sample_frames] *)

Section Sampling.

(** [random.shuffle]: the order it leaves the list in. *)
Variable shuffle : list frame -> list frame.

(** The positions picked by mode 1. *)
Definition uniform_index (tot n : Z) : list Z :=
  if n =? 1 then [Z.shiftr tot 1]
  else
    let step := Py.float_of ((inject_Z tot - 1) / inject_Z (n - 1))%Q in
    map (fun x => Py.round (Py.float_of (inject_Z x * step)%Q)) (Py.range n).

Definition sample_frames (args : Args) (frames : list frame) : result (list frame) :=
  if sample_mode args =? 0 then Ok frames
  else
    rbind (Py.int (sample args)) (fun n =>
    if negb (0 <? n)
    then Raise (Exn AssertionError ("N must >0, but get " +:+ Py.str_of_Z n))
    else
      let tot := Z.of_nat (length frames) in
      if sample_mode args =? 1 then
        rmapM (Py.index frames) (uniform_index tot n)
      else if sample_mode args =? 2 then
        let frames := shuffle frames in
        let frames := take (Z.to_nat (Z.min n tot)) frames in
        Ok (Py.sort_by fst frames)
      else if sample_mode args =? 3 then
        Ok (Py.slice_step frames n)
      else Raise (Exn AttributeError "Sample mode is not supported")).

End Sampling.

(** ** Requests to the outside world *)

Definition bytes : Type := list Byte.byte.

(** What [process] hands to the store: the raw bytes for LMDB, the bytes
    wrapped in [np.void] for HDF5. *)
Inductive db_value :=
  | VBytes (b : bytes)
  | VVoid (b : bytes).

(** An entry of the annotation file. *)
Record Annotation := { path : string; label : string }.

Inductive op : Type -> Type :=
  | Mkdir (p : Path) : op unit               (* p.mkdir(exist_ok=True) *)
  | JsonLoad (p : Path) : op (list Annotation)
                                             (* json.load(p.open()) *)
  | Call (cmd : list string) : op Z          (* subprocess.call(cmd) *)
  | Iterdir (p : Path) : op (list Path)      (* list(p.iterdir()) *)
  | ReadFile (p : Path) : op bytes           (* p.open("rb").read() *)
  | Rmtree (p : Path) : op unit              (* shutil.rmtree(p, ignore_errors=True) *)
  | LmdbOpen (name : string) : op unit       (* lmdb.open(name, map_size=1 << 40) *)
  | LmdbPut (k : string) (v : db_value) : op unit
                                             (* one write transaction around txn.put(k, v) *)
  | H5Open (name : string) : op unit         (* h5py.File(name, 'w') *)
  | H5Set (k : string) (v : db_value) : op unit
                                             (* file[k] = v *)
  | DbClose : op unit.                       (* database.close() *)

(** A program: it returns, raises, or sends a request and goes on with
    the answer, which may itself be an exception. *)
Inductive prog (A : Type) : Type :=
  | Ret (a : A)
  | Throw (e : exn)
  | Vis {X : Type} (o : op X) (k : result X -> prog A).
Arguments Ret {A} a.
Arguments Throw {A} e.
Arguments Vis {A X} o k.

Definition lift {A} (r : result A) : prog A :=
  match r with
  | Ok a => Ret a
  | Raise e => Throw e
  end.

Definition call {X} (o : op X) : prog X := Vis o lift.

Fixpoint pbind {A B} (p : prog A) (f : A -> prog B) : prog B :=
  match p with
  | Ret a => f a
  | Throw e => Throw e
  | Vis o k => Vis o (fun r => pbind (k r) f)
  end.

(** [try: p  except: h] *)
Fixpoint try_except {A} (p : prog A) (h : exn -> prog A) : prog A :=
  match p with
  | Ret a => Ret a
  | Throw e => h e
  | Vis o k => Vis o (fun r => try_except (k r) h)
  end.

Notation "'let*' x ':=' p 'in' q" := (pbind p (fun x => q))
  (at level 10, x name, p at level 100, q at level 200, only parsing).
Notation "p ';;' q" := (pbind p (fun _ => q))
  (at level 100, q at level 200, right associativity, only parsing).

(** [for x in l: body(x)] *)
Fixpoint for_each {A} (l : list A) (body : A -> prog unit) : prog unit :=
  match l with
  | [] => Ret tt
  | x :: t => body x ;; for_each t body
  end.

Fixpoint enumerate_from {A} (i : Z) (l : list A) : list (Z * A) :=
  match l with
  | [] => []
  | x :: t => (i, x) :: enumerate_from (i + 1) t
  end.

(** [enumerate(l)] *)
Definition enumerate {A} (l : list A) : list (Z * A) := enumerate_from 0 l.

(** ** The storage classes *)

Inductive Storage := LMDBStorage | HDF5Storage.

Definition Storage_open (t : db_kind) (name : string) : prog Storage :=
  match t with
  | LMDB => call (LmdbOpen name) ;; Ret LMDBStorage
  | HDF5 => call (H5Open name) ;; Ret HDF5Storage
  end.

Definition put (self : Storage) (k : string) (v : db_value) : prog unit :=
  match self with
  | LMDBStorage => call (LmdbPut k v)
  | HDF5Storage => call (H5Set k v)
  end.

Definition close (self : Storage) : prog unit := call DbClose.

(** ** [video_to_frames] and [process] *)

Section Program.

Variable shuffle : list frame -> list frame.

Definition ffmpeg_cmd (args : Args) (video_file tmp : Path) : list string :=
  ["ffmpeg"; "-loglevel"; "panic"; "-vsync"; "vfr"; "-i"; Pathlib.to_str video_file]
  ++ vf_setting args
  ++ ["-qscale:v"; "2"; Pathlib.to_str (Pathlib.join tmp (Pathlib.of_str "%8d.jpg"))].

(** [(int(f.name.split('.')[0]), f)] *)
Definition frame_of_file (f : Path) : result frame :=
  rbind (Py.int (Some (List.hd "" (Py.split_on "." (Pathlib.name f)))))
        (fun i => Ok (i, f)).

Definition video_to_frames (args : Args) (video_file tmp : Path) : prog (list frame) :=
  call (Call (ffmpeg_cmd args video_file tmp)) ;;
  let* files := call (Iterdir tmp) in
  let* frames := lift (rmapM frame_of_file files) in
  Ret (Py.sort_by fst frames).

Definition frame_key (video_ith frame_ith : Z) : string :=
  Py.fmt08d video_ith +:+ "/" +:+ Py.fmt08d frame_ith.

Definition video_tmp_dir (args : Args) (video_info : Annotation) : Path :=
  let video_file := Pathlib.of_str (path video_info) in
  Pathlib.join (Pathlib.of_str (tmp_dir args)) (Pathlib.of_str (Pathlib.name video_file)).

(** The body of the [try] block of [process]. *)
Definition write_frames (args : Args) (video_ith : Z) (tmp : Path)
    (frame_db : Storage) (files : list frame) : prog unit :=
  for_each (enumerate files) (fun '(frame_ith, (frame_id, frame_path)) =>
    let key := frame_key video_ith frame_ith in
    let* s := call (ReadFile (Pathlib.join tmp frame_path)) in
    put frame_db key (match db_type args with LMDB => VBytes s | HDF5 => VVoid s end)).

Definition process (args : Args) (video_ith : Z) (video_info : Annotation)
    (frame_db : Storage) : prog string :=
  let video_file := Pathlib.of_str (path video_info) in
  let tmp := video_tmp_dir args video_info in
  call (Mkdir tmp) ;;
  let* frames := video_to_frames args video_file tmp in
  match frames with
  | [] => Throw (Exn RuntimeError "Extract frame failed")
  | _ :: _ =>
      let* files := lift (sample_frames shuffle args frames) in
      match files with
      | [] => Throw (Exn RuntimeError "No frames in video")
      | _ :: _ =>
          try_except (write_frames args video_ith tmp frame_db files)
            (fun _ => Throw (Exn RuntimeError "Video exists in database")) ;;
          (if not_remove args then Ret tt
           else Vis (Rmtree tmp) (fun _ => Ret tt)) ;;
          Ret "OK"
      end
  end.

End Program.

(** ** Running a program against the outside world *)

(** A request together with the answer it got. *)
Inductive event :=
  | Ev {X : Type} (o : op X) (r : result X).

(** The key of a write to the store, for either engine. *)
Definition put_key (ev : event) : option string :=
  match ev with
  | Ev (LmdbPut k _) _ => Some k
  | Ev (H5Set k _) _ => Some k
  | _ => None
  end.

Definition put_keys (tr : list event) : list string := omap put_key tr.

(** What the driver learns about one video. *)
Record report := Report {
  rep_ith : Z;
  rep_path : string;
  rep_result : result string
}.

(** ["{} : {}".format(video_file, e)] and ["{} : {}".format(video_file,
    video_status)] *)
Definition status_line (r : report) : string :=
  rep_path r +:+ " : " +:+
  match rep_result r with
  | Ok video_status => video_status
  | Raise e => exn_msg e
  end.

(** A submitted call of [process]: what is left of it to run. *)
Record job := Job {
  job_ith : Z;
  job_path : string;
  job_body : prog string
}.

Section Run.

Context {St : Type}.
Variable handle : forall X, op X -> St -> St * result X.
Variable shuffle : list frame -> list frame.

Fixpoint exec {A} (p : prog A) (s : St) : St * list event * result A :=
  match p with
  | Ret a => (s, [], Ok a)
  | Throw e => (s, [], Raise e)
  | Vis o k =>
      let '(s1, r) := handle _ o s in
      let '(s2, tr, res) := exec (k r) s1 in
      (s2, Ev o r :: tr, res)
  end.

(** The loop of the [else] branch of the main block: one video after
    the other, every exception caught and reported. *)
Fixpoint run_sequential (args : Args) (frame_db : Storage)
    (jobs : list (Z * Annotation)) (s : St) : St * list event * list report :=
  match jobs with
  | [] => (s, [], [])
  | (ith, video_info) :: rest =>
      let video_file := path video_info in
      let '(s1, tr1, r) := exec (process shuffle args ith video_info frame_db) s in
      let '(s2, tr2, reps) := run_sequential args frame_db rest s1 in
      (s2, tr1 ++ tr2, Report ith video_file r :: reps)
  end.

(** One request of a worker, or the hand-over of a finished call to
    [as_completed]. *)
Definition step_job (j : job) (s : St) : St * list event * (job + report) :=
  match job_body j with
  | Ret video_status => (s, [], inr (Report (job_ith j) (job_path j) (Ok video_status)))
  | Throw e => (s, [], inr (Report (job_ith j) (job_path j) (Raise e)))
  | Vis o k =>
      let '(s1, r) := handle _ o s in
      (s1, [Ev o r], inl (Job (job_ith j) (job_path j) (k r)))
  end.

(** The executor waits for every call it was given: what the schedule
    leaves unfinished runs to its end. *)
Fixpoint drain (pool : list (option job)) (s : St) : St * list event * list report :=
  match pool with
  | [] => (s, [], [])
  | None :: rest => drain rest s
  | Some j :: rest =>
      let '(s1, tr1, r) := exec (job_body j) s in
      let '(s2, tr2, reps) := drain rest s1 in
      (s2, tr1 ++ tr2, Report (job_ith j) (job_path j) r :: reps)
  end.

(** The thread pool under a schedule: [sched] names, step by step, the
    submitted call that moves next. A slot is [None] once its call has
    been reported. Every interleaving of the calls is a schedule, those
    that [max_workers] threads can produce among them. *)
Fixpoint run_pool (sched : list nat) (pool : list (option job)) (s : St)
    : St * list event * list report :=
  match sched with
  | [] => drain pool s
  | i :: sched' =>
      match pool !! i with
      | Some (Some j) =>
          let '(s1, tr1, x) := step_job j s in
          match x with
          | inl j' =>
              let '(s2, tr2, reps) := run_pool sched' (<[i := Some j']> pool) s1 in
              (s2, tr1 ++ tr2, reps)
          | inr rep =>
              let '(s2, tr2, reps) := run_pool sched' (<[i := None]> pool) s1 in
              (s2, tr1 ++ tr2, rep :: reps)
          end
      | _ => run_pool sched' pool s
      end
  end.

Definition submit (args : Args) (frame_db : Storage) (item : Z * Annotation) : option job :=
  let '(ith, video_info) := item in
  Some (Job ith (path video_info) (process shuffle args ith video_info frame_db)).

Definition run_videos (args : Args) (frame_db : Storage)
    (annotations : list Annotation) (sched : list nat) (s : St)
    : St * list event * list report :=
  if 0 <? threads args
  then run_pool sched (map (submit args frame_db) (enumerate annotations)) s
  else run_sequential args frame_db (enumerate annotations) s.

(** The main block after [parse_args]: the lines written, and how the
    run ended. *)
Definition main (args : Args) (sched : list nat)
    (s : St) : St * list event * (list string * result unit) :=
  let '(s0, tr0, r0) :=
    exec (call (Mkdir (Pathlib.of_str (tmp_dir args))) ;;
          let* frame_db := Storage_open (db_type args) (db_name args) in
          let* annotations := call (JsonLoad (Pathlib.of_str (annotation_file args))) in
          Ret (frame_db, annotations)) s in
  match r0 with
  | Raise e => (s0, tr0, ([], Raise e))
  | Ok (frame_db, annotations) =>
      let '(s1, tr1, reps) := run_videos args frame_db annotations sched s0 in
      let '(s2, tr2, r2) := exec (close frame_db) s1 in
      match r2 with
      | Raise e => (s2, tr0 ++ tr1 ++ tr2, (map status_line reps, Raise e))
      | Ok _ => (s2, tr0 ++ tr1 ++ tr2, (map status_line reps ++ ["Done"], Ok tt))
      end
  end.

End Run.

(** ** A simulated outside world

    One handler to run the program on concrete inputs: directories and
    files, a store, and the frames the transcoder finds in each source
    video, and the annotation files. The engines follow their libraries:
    h5py refuses to create a dataset under a name that exists; py-lmdb
    takes keys that are [bytes] and refuses the [str] key that [process]
    hands to it. *)

Module Sim.

Record World := {
  dirs : list Path;
  files : list (Path * bytes);
  store : gmap string db_value;
  clips : list (string * list bytes);
  jsons : list (Path * list Annotation)
}.

Definition parent (p : Path) : Path :=
  {| is_abs := is_abs p; comps := removelast (comps p) |}.

Definition dir_exists (w : World) (p : Path) : bool :=
  bool_decide (comps p = []) || bool_decide (p ∈ dirs w).

Definition enoent : exn := Exn OSError "No such file or directory".

Definition lookup_clip (w : World) (src : string) : list bytes :=
  match List.find (fun c => String.eqb (fst c) src) (clips w) with
  | Some c => snd c
  | None => []
  end.

(** The operand that follows [-i]. *)
Fixpoint input_of (cmd : list string) : string :=
  match cmd with
  | flag :: rest =>
      if String.eqb flag "-i" then List.hd "" rest else input_of rest
  | [] => ""
  end.

Definition frame_files (dir : Path) (frames : list bytes) : list (Path * bytes) :=
  map (fun '(i, b) => (Pathlib.join dir (Pathlib.of_str (Py.fmt08d i +:+ ".jpg")), b))
      (enumerate_from 1 frames).

Definition ffmpeg (cmd : list string) (w : World) : World * result Z :=
  let dir := parent (Pathlib.of_str (List.last cmd "")) in
  let frames := lookup_clip w (input_of cmd) in
  if dir_exists w dir && negb (bool_decide (frames = []))
  then
    let new := rev (frame_files dir frames) in
    let old := List.filter (fun f => negb (bool_decide (fst f ∈ map fst new))) (files w) in
    ({| dirs := dirs w; files := new ++ old; store := store w; clips := clips w;
          jsons := jsons w |}, Ok 0)
  else (w, Ok 1).

Definition is_under (dir p : Path) : bool :=
  bool_decide (is_abs dir = is_abs p) &&
  bool_decide (take (length (comps dir)) (comps p) = comps dir).

Definition handle (X : Type) (o : op X) (w : World) : World * result X :=
  match o in op X return World * result X with
  | JsonLoad p =>
      match List.find (fun f => bool_decide (fst f = p)) (jsons w) with
      | Some f => (w, Ok (snd f))
      | None => (w, Raise enoent)
      end
  | Mkdir p =>
      if dir_exists w p then (w, Ok tt)
      else if dir_exists w (parent p)
      then ({| dirs := p :: dirs w; files := files w;
               store := store w; clips := clips w;
          jsons := jsons w |}, Ok tt)
      else (w, Raise enoent)
  | Call cmd => ffmpeg cmd w
  | Iterdir p =>
      if dir_exists w p
      then (w, Ok (map fst (List.filter (fun f => bool_decide (parent (fst f) = p)) (files w))))
      else (w, Raise enoent)
  | ReadFile p =>
      match List.find (fun f => bool_decide (fst f = p)) (files w) with
      | Some f => (w, Ok (snd f))
      | None => (w, Raise enoent)
      end
  | Rmtree p =>
      ({| dirs := List.filter (fun d => negb (is_under p d)) (dirs w);
          files := List.filter (fun f => negb (is_under p (fst f))) (files w);
          store := store w; clips := clips w;
          jsons := jsons w |}, Ok tt)
  | LmdbOpen _ => (w, Ok tt)
  | H5Open _ =>
      ({| dirs := dirs w; files := files w; store := ∅; clips := clips w;
          jsons := jsons w |}, Ok tt)
  | LmdbPut k v =>
      (w, Raise (Exn TypeError "Won't implicitly convert Unicode to bytes; use .encode()"))
  | H5Set k v =>
      match store w !! k with
      | Some _ => (w, Raise (Exn ValueError "Unable to create dataset (name already exists)"))
      | None =>
          ({| dirs := dirs w; files := files w;
              store := <[k := v]> (store w); clips := clips w;
          jsons := jsons w |}, Ok tt)
      end
  | DbClose => (w, Ok tt)
  end.

Definition blob (n : nat) : bytes := repeat Byte.x2a n.

(** A world with three source videos, of three, two and four frames,
    and no annotation file. *)
Definition world0 : World :=
  {| dirs := [Pathlib.of_str "/tmp"; Pathlib.of_str "scratch"];
     files := [];
     store := ∅;
     clips := [("/data/a/clip.mp4", [blob 1; blob 2; blob 3]);
               ("/data/b/clip.mp4", [blob 4; blob 5]);
               ("/data/c/other.mp4", [blob 6; blob 7; blob 8; blob 9])];
     jsons := [] |}.

(** The world [w] with the annotation file "ann.json" that lists
    [annotations]. *)
Definition annotated (annotations : list Annotation) (w : World) : World :=
  {| dirs := dirs w; files := files w; store := store w; clips := clips w;
     jsons := [(Pathlib.of_str "ann.json", annotations)] |}.

Definition args0 (tmp : string) (mode : Z) (n : string) (t : Z) : Args :=
  {| annotation_file := "ann.json";
     db_name := "frames.hdf5"; tmp_dir := tmp; db_type := HDF5; vf_setting := [];
     sample_mode := mode; sample := Some n; threads := t; not_remove := false |}.

Definition video (p : string) : Annotation := {| path := p; label := "0" |}.

(** The same world with a store that already holds the first key of
    video 0. *)
Definition world_used : World :=
  {| dirs := dirs world0; files := files world0;
     store := {[ "00000000/00000000" := VVoid (blob 9) ]};
     clips := clips world0; jsons := jsons world0 |}.

(** The arguments of a run on an LMDB environment. *)
Definition args_lmdb : Args :=
  {| annotation_file := "ann.json";
     db_name := "frames.lmdb"; tmp_dir := "/tmp"; db_type := LMDB; vf_setting := [];
     sample_mode := 0; sample := None; threads := 0; not_remove := false |}.

End Sim.

(** ** The read-path loader, [VideoDataset] *)

Module Loader.

(** A Python number: an [int], or the [float] that true division gives. *)
Inductive num :=
  | PInt (z : Z)
  | PFloat (q : Q).

(** ["{:08d}".format(x)]: the [d] code is refused for a [float]. *)
Definition format_08d (x : num) : result string :=
  match x with
  | PInt z => Ok (Py.fmt08d z)
  | PFloat _ =>
      Raise (Exn ValueError "Unknown format code 'd' for object of type 'float'")
  end.

Record VideoDataset := {
  num_frames_per_clip : Z;
  crop_size : Z;
  annotation : list Annotation;
  database : gmap string (gmap string bytes)
}.

(** [group[name]] of h5py. *)
Definition h5_get {V} (group : gmap string V) (name : string) : result V :=
  match group !! name with
  | Some v => Ok v
  | None => Raise (Exn KeyError ("Unable to open object (object '" +:+ name +:+ "' doesn't exist)"))
  end.

(** The frames picked from a clip of [len] stored frames. *)
Definition frame_index (self : VideoDataset) (len : Z) : list num :=
  if negb (num_frames_per_clip self =? 0) then
    if num_frames_per_clip self =? 1 then [PFloat (inject_Z len / 2)]
    else
      let skips :=
        Py.float_of (inject_Z (len - 1) * 1 / inject_Z (num_frames_per_clip self - 1))%Q in
      map (fun x => PInt (Py.round (Py.float_of (inject_Z x * skips)%Q)))
          (Py.range (num_frames_per_clip self))
  else map PInt (Py.range len).

Section GetItem.

(** Decoding and cropping belong to scipy, numpy and [random]. *)
Context {image ndarray : Type}.
Variable imread : bytes -> result image.
Variable np_array : list image -> ndarray.
Variable shape : ndarray -> list Z.
Variable randint : Z -> Z -> result Z.
Variable crop : ndarray -> Z -> Z -> Z -> Z -> ndarray.

Definition getitem (self : VideoDataset) (index : Z) : result (ndarray * string) :=
  rbind (Py.index (annotation self) index) (fun annotation =>
  (* Get the binary frames *)
  rbind (h5_get (database self) (Py.fmt08d index)) (fun frames_binary =>
  (* Sample the frames *)
  let frame_index := frame_index self (Z.of_nat (size frames_binary)) in
  (* Decode the frames *)
  rbind (rmapM (fun idx =>
           rbind (format_08d idx) (fun name =>
           rbind (h5_get frames_binary name) imread)) frame_index) (fun video_data =>
  let video_data := np_array video_data in
  (* Crop the videos *)
  rbind (if negb (crop_size self =? 0) then
           match shape video_data with
           | [_; h; w; _] =>
               rbind (randint 0 (h - crop_size self - 1)) (fun y1 =>
               rbind (randint 0 (w - crop_size self - 1)) (fun x1 =>
               let y2 := y1 + crop_size self in
               let x2 := x1 + crop_size self in
               Ok (crop video_data y1 y2 x1 x2)))
           | _ => Raise (Exn ValueError "not enough values to unpack")
           end
         else Ok video_data) (fun video_data =>
  Ok (video_data, label annotation))))).

End GetItem.

(** A store with one clip of four frames. *)
Definition dataset0 (n : Z) : VideoDataset :=
  {| num_frames_per_clip := n;
     crop_size := 0;
     annotation := [Sim.video "/data/c/other.mp4"];
     database :=
       {[ "00000000" :=
            {[ "00000000" := Sim.blob 6; "00000001" := Sim.blob 7;
               "00000002" := Sim.blob 8; "00000003" := Sim.blob 9 ]} ]} |}.

End Loader.

(** ** Vocabulary of the statements *)

(** The step of mode 1 for [n >= 2], before and after its rounding, and
    the position picked for the [x]-th frame. *)
Definition uniform_ratio (tot n : Z) : Q := ((inject_Z tot - 1) / inject_Z (n - 1))%Q.

Definition uniform_step (tot n : Z) : Q := Py.float_of (uniform_ratio tot n).

Definition uniform_pos (tot n x : Z) : Z :=
  Py.round (Py.float_of (inject_Z x * uniform_step tot n))%Q.

(** The positions of mode 1 once more, for comparison: computed with
    the operations of the Standard Library's specification of IEEE 754,
    on binary64 (53 bits of precision, exponents below 1024). *)
Definition b64_of_Z (z : Z) : SpecFloat.spec_float :=
  SpecFloat.binary_normalize 53 1024 z 0 false.

Definition b64_value (f : SpecFloat.spec_float) : Q :=
  match f with
  | SpecFloat.S754_finite s m e => (inject_Z (if s then Z.neg m else Z.pos m) * 2 ^ e)%Q
  | _ => 0%Q
  end.

Definition uniform_index_b64 (tot n : Z) : list Z :=
  let step :=
    SpecFloat.SFdiv 53 1024
      (SpecFloat.SFsub 53 1024 (b64_of_Z tot) (b64_of_Z 1)) (b64_of_Z (n - 1)) in
  map (fun x => Py.round (b64_value (SpecFloat.SFmul 53 1024 (b64_of_Z x) step)))
      (Py.range n).

(** Frames numbered 1 to [n], as the transcoder names them. *)
Definition numbered_frames (n : nat) : list frame :=
  map (fun i => (Z.of_nat i,
                 Pathlib.of_str ("/tmp/clip.mp4/" +:+ Py.fmt08d (Z.of_nat i) +:+ ".jpg")))
      (seq 1 n).

(** Orders on frames by a key, for the sort. *)
Definition key_le {A} (key : A -> Z) (a b : A) : Prop := key a <= key b.
Definition key_lt {A} (key : A -> Z) (a b : A) : Prop := key a < key b.

(** Whether the character occurs in the string. *)
Fixpoint contains (sep : ascii) (s : string) : bool :=
  match s with
  | EmptyString => false
  | String c s' => Ascii.eqb c sep || contains sep s'
  end.

(** [always P Q p]: whatever the outside world answers, every request of
    [p] together with its answer satisfies [P], and the outcome of [p]
    satisfies [Q]. *)
Fixpoint always {A} (P : event -> Prop) (Q : result A -> Prop) (p : prog A) : Prop :=
  match p with
  | Ret a => Q (Ok a)
  | Throw e => Q (Raise e)
  | Vis o k => forall r, P (Ev o r) /\ always P Q (k r)
  end.

(** [runs p tr r]: [tr] is a complete run of [p], its requests in their
    order, each with the answer it got, and on these answers [p] ends
    with [r]. *)
Inductive runs {A} : prog A -> list event -> result A -> Prop :=
  | runs_ret a : runs (Ret a) [] (Ok a)
  | runs_throw e : runs (Throw e) [] (Raise e)
  | runs_vis {X} (o : op X) k r tr res :
      runs (k r) tr res -> runs (Vis o k) (Ev o r :: tr) res.

(** [answers handle s tr s']: the answers in [tr] are those that the
    outside world gave, request after request, from the state [s] to the
    state [s']. *)
Fixpoint answers {St : Type} (handle : forall X, op X -> St -> St * result X)
    (s : St) (tr : list event) (s' : St) : Prop :=
  match tr with
  | [] => s' = s
  | Ev o r :: tr' => (handle _ o s).2 = r /\ answers handle (handle _ o s).1 tr' s'
  end.

(** [interleaving trs tr]: [tr] is made of the events of the traces
    [trs] and of nothing else, every trace in its own order. *)
Inductive interleaving : list (list event) -> list event -> Prop :=
  | interleaving_nil trs : Forall (fun t => t = []) trs -> interleaving trs []
  | interleaving_cons trs i ev t tr :
      trs !! i = Some (ev :: t) -> interleaving (<[i := t]> trs) tr ->
      interleaving trs (ev :: tr).

(** One complete run of [process] for every video of [jobs], in the
    order of the list: its trace and its outcome. *)
Definition video_runs (shuffle : list frame -> list frame) (args : Args)
    (frame_db : Storage) (jobs : list (Z * Annotation))
    (outs : list (list event * result string)) : Prop :=
  Forall2 (fun item out => runs (process shuffle args item.1 item.2 frame_db) out.1 out.2)
          jobs outs.

(** The reports of these runs: each under the index and the path of its
    video. *)
Definition reports_of (jobs : list (Z * Annotation))
    (outs : list (list event * result string)) : list report :=
  zip_with (fun item out => Report item.1 (path item.2) out.2) jobs outs.

(** The same for the slots of the pool: a slot whose call is reported
    has nothing left to run. *)
Definition slot_runs (slot : option job) (out : list event * result string) : Prop :=
  match slot with
  | Some j => runs (job_body j) out.1 out.2
  | None => out.1 = []
  end.

Definition slot_report (slot : option job) (out : list event * result string)
    : option report :=
  match slot with
  | Some j => Some (Report (job_ith j) (job_path j) out.2)
  | None => None
  end.

Definition pool_reports (pool : list (option job))
    (outs : list (list event * result string)) : list report :=
  omap id (zip_with slot_report pool outs).

Definition rep_tag (r : report) : Z * string := (rep_ith r, rep_path r).
Definition job_tag (j : job) : Z * string := (job_ith j, job_path j).

(** The submitted calls that have not been reported yet. *)
Definition pending (pool : list (option job)) : list job := omap id pool.



Definition video_tag (item : Z * Annotation) : Z * string := (item.1, path item.2).





(** A listing that [video_to_frames] turns into [frames]. *)
Definition lists_frames (listing : list Path) (frames : list frame) : Prop :=
  exists parsed,
    rmapM frame_of_file listing = Ok parsed /\ frames = Py.sort_by fst parsed.

(** ** Command-line options: [modify_args] *)

(** [str] methods used on the options (ASCII letters for [lower]). *)
Module Str.

Definition lower_ascii (c : ascii) : ascii :=
  let n := nat_of_ascii c in
  if ((65 <=? n)%nat && (n <=? 90)%nat)%bool then ascii_of_nat (n + 32) else c.

(** [s.lower()] *)
Fixpoint lower (s : string) : string :=
  match s with
  | EmptyString => EmptyString
  | String c s' => String (lower_ascii c) (lower s')
  end.

(** [s.endswith(suffix)] *)
Fixpoint endswith (s suffix : string) : bool :=
  String.eqb s suffix ||
  match s with
  | EmptyString => false
  | String _ s' => endswith s' suffix
  end.

(** [s[:-n]] for n > 0 *)
Definition drop_last (n : nat) (s : string) : string :=
  String.substring 0 (String.length s - n) s.

End Str.

(** What is raised before the run starts: one of the built-in classes,
    or a plain [Exception]. *)
Inductive raised :=
  | Builtin (e : exn)
  | PlainException (msg : string).

Inductive checked (A : Type) : Type :=
  | Accepted (a : A)
  | Rejected (e : raised).
Arguments Accepted {A} a.
Arguments Rejected {A} e.

Definition of_result {A} (r : result A) : checked A :=
  match r with
  | Ok a => Accepted a
  | Raise e => Rejected (Builtin e)
  end.

Definition cbind {A B} (c : checked A) (f : A -> checked B) : checked B :=
  match c with
  | Accepted a => f a
  | Rejected e => Rejected e
  end.

(** The namespace that argparse hands to [modify_args]; [cli_vf_setting]
    is the attribute that [modify_args] adds. *)
Record CliArgs := {
  cli_annotation_file : string;
  cli_db_name : option string;
  cli_db_type : string;
  cli_tmp_dir : string;
  cli_resize_mode : Z;
  cli_resize : option string;
  cli_fps : Q;
  cli_sample_mode : Z;
  cli_sample : option string;
  cli_threads : Z;
  cli_not_remove : bool;
  cli_vf_setting : list string
}.

Section ModifyArgs.

(** ["{}".format(x)] for a [float]. *)
Variable float_str : Q -> string.

(** The first part of [modify_args]: the name and the type of the store. *)
Definition check_db (annotation_file : string) (db_name : option string)
    (db_type : string) : checked (string * string) :=
  let db_name :=
    match db_name with
    | Some name =>
        if String.eqb name "" then
          if Str.endswith (Str.lower annotation_file) ".json"
          then Str.drop_last 5 annotation_file
          else annotation_file
        else name
    | None =>
        if Str.endswith (Str.lower annotation_file) ".json"
        then Str.drop_last 5 annotation_file
        else annotation_file
    end in
  if Str.endswith (Str.lower db_name) ".hdf5" then Accepted (db_name, "HDF5")
  else if Str.endswith (Str.lower db_name) ".lmdb" then Accepted (db_name, "LMDB")
  else if String.eqb db_type "HDF5" then Accepted (db_name +:+ ".hdf5", db_type)
  else if String.eqb db_type "LMDB" then Accepted (db_name +:+ ".lmdb", db_type)
  else Rejected (PlainException "Unknown db_type").

Definition assert_that (b : bool) (msg : string) : checked unit :=
  if b then Accepted tt else Rejected (Builtin (Exn AssertionError msg)).

(** The second part: the filter arguments of the resize mode. *)
Definition check_resize (resize_mode : Z) (resize : option string)
    : checked (list string) :=
  if resize_mode =? 0 then Accepted []
  else if resize_mode =? 1 then
    match resize with
    | None => Rejected (Builtin (Exn AttributeError
                "'NoneType' object has no attribute 'split'"))
    | Some text =>
        match Py.split_on "x" text with
        | W :: H :: _ =>
            cbind (of_result (Py.int (Some W))) (fun W =>
            cbind (of_result (Py.int (Some H))) (fun H =>
            cbind (assert_that ((0 <? W) && (0 <? H)) "") (fun _ =>
            Accepted ["-vf"; "scale=" +:+ Py.str_of_Z W +:+ ":" +:+ Py.str_of_Z H])))
        | _ => Rejected (Builtin (Exn ValueError
                 "not enough values to unpack (expected at least 2, got 1)"))
        end
    end
  else if resize_mode =? 2 then
    match resize with
    | None => Rejected (Builtin (Exn TypeError "'NoneType' object is not subscriptable"))
    | Some EmptyString => Rejected (Builtin (Exn IndexError "string index out of range"))
    | Some (String c rest) =>
        let side := Str.lower_ascii c in
        cbind (assert_that (Ascii.eqb side "l" || Ascii.eqb side "s")
                 "The (L)onger side, or the (S)horter side?") (fun _ =>
        cbind (of_result (Py.int (Some rest))) (fun scale =>
        cbind (assert_that (0 <? scale) "") (fun _ =>
        let pick := if Ascii.eqb side "l" then "max" else "min" in
        Accepted ["-vf";
                  "scale='iw*1.0/" +:+ pick +:+ "(iw,ih)*" +:+ Py.str_of_Z scale
                  +:+ "':'ih*1.0/" +:+ pick +:+ "(iw,ih)*" +:+ Py.str_of_Z scale +:+ "'"])))
    end
  else Rejected (PlainException "Unspecified frame scale option").

Definition modify_args (args : CliArgs) : checked CliArgs :=
  (* check the options *)
  cbind (check_db (cli_annotation_file args) (cli_db_name args) (cli_db_type args))
    (fun '(db_name, db_type) =>
  (* Parse the resize mode *)
  cbind (check_resize (cli_resize_mode args) (cli_resize args)) (fun vf_setting =>
  (* Parse the fps setting *)
  let vf_setting :=
    if Qlt_le_dec 0 (cli_fps args)
    then vf_setting ++ ["-r"; float_str (cli_fps args)]
    else vf_setting in
  Accepted {| cli_annotation_file := cli_annotation_file args;
              cli_db_name := Some db_name;
              cli_db_type := db_type;
              cli_tmp_dir := cli_tmp_dir args;
              cli_resize_mode := cli_resize_mode args;
              cli_resize := cli_resize args;
              cli_fps := cli_fps args;
              cli_sample_mode := cli_sample_mode args;
              cli_sample := cli_sample args;
              cli_threads := cli_threads args;
              cli_not_remove := cli_not_remove args;
              cli_vf_setting := vf_setting |})).

(** The options as the rest of the program reads them. *)
Definition to_Args (args : CliArgs) : Args :=
  {| annotation_file := cli_annotation_file args;
     db_name := default "" (cli_db_name args);
     tmp_dir := cli_tmp_dir args;
     db_type := if String.eqb (cli_db_type args) "LMDB" then LMDB else HDF5;
     vf_setting := cli_vf_setting args;
     sample_mode := cli_sample_mode args;
     sample := cli_sample args;
     threads := cli_threads args;
     not_remove := cli_not_remove args |}.

End ModifyArgs.

(** The whole main block on the parsed command line: an exception of
    [modify_args] ends the run before anything is touched. *)
Definition script {St : Type} (handle : forall X, op X -> St -> St * result X)
    (shuffle : list frame -> list frame) (float_str : Q -> string)
    (cli : CliArgs) (sched : list nat) (s : St)
    : St * list event * (list string * checked unit) :=
  match modify_args float_str cli with
  | Rejected e => (s, [], ([], Rejected e))
  | Accepted args =>
      let '(s', tr, (lines, r)) := main handle shuffle (to_Args args) sched s in
      (s', tr, (lines, of_result r))
  end.

(** A command line: [ann.json] and nothing else but what the test sets. *)
Definition cli0 (resize_mode : Z) (resize : option string) : CliArgs :=
  {| cli_annotation_file := "ann.json"; cli_db_name := None; cli_db_type := "HDF5";
     cli_tmp_dir := "/tmp"; cli_resize_mode := resize_mode; cli_resize := resize;
     cli_fps := -1; cli_sample_mode := 0; cli_sample := None; cli_threads := 0;
     cli_not_remove := false; cli_vf_setting := [] |}.

(** The same command line with other sampling options. *)
Definition with_sampling (sample_mode : Z) (sample : option string) (args : CliArgs)
    : CliArgs :=
  {| cli_annotation_file := cli_annotation_file args;
     cli_db_name := cli_db_name args;
     cli_db_type := cli_db_type args;
     cli_tmp_dir := cli_tmp_dir args;
     cli_resize_mode := cli_resize_mode args;
     cli_resize := cli_resize args;
     cli_fps := cli_fps args;
     cli_sample_mode := sample_mode;
     cli_sample := sample;
     cli_threads := cli_threads args;
     cli_not_remove := cli_not_remove args;
     cli_vf_setting := cli_vf_setting args |}.

Definition checked_map {A B} (f : A -> B) (c : checked A) : checked B :=
  match c with
  | Accepted a => Accepted (f a)
  | Rejected e => Rejected e
  end.

(** The number that decimal digits continue from [acc]. *)
Fixpoint uint_value (d : Decimal.uint) (acc : Z) : Z :=
  match d with
  | Decimal.Nil => acc
  | Decimal.D0 l => uint_value l (10 * acc + 0)
  | Decimal.D1 l => uint_value l (10 * acc + 1)
  | Decimal.D2 l => uint_value l (10 * acc + 2)
  | Decimal.D3 l => uint_value l (10 * acc + 3)
  | Decimal.D4 l => uint_value l (10 * acc + 4)
  | Decimal.D5 l => uint_value l (10 * acc + 5)
  | Decimal.D6 l => uint_value l (10 * acc + 6)
  | Decimal.D7 l => uint_value l (10 * acc + 7)
  | Decimal.D8 l => uint_value l (10 * acc + 8)
  | Decimal.D9 l => uint_value l (10 * acc + 9)
  end.

(** No white space, sign, slash or dot: a character of a padded number. *)
Definition is_digit (c : ascii) : bool :=
  match Py.digit_of c with
  | Some _ => true
  | None => false
  end.

(** The directory that a request removes. *)
Definition rmtree_target (ev : event) : option Path :=
  match ev with
  | Ev (Rmtree p) _ => Some p
  | _ => None
  end.

Definition rmtree_targets (tr : list event) : list Path := omap rmtree_target tr.

(** Neither a write to the store nor a removal. *)
Definition quiet (ev : event) : Prop := put_key ev = None /\ rmtree_target ev = None.




(** How a call of [process] can have gone, by its requests and outcome:
    put requests for the first [k] positions; then either an exception
    and no removal, or "OK" and the removal of the working directory
    unless [not_remove] is set. *)
Definition process_shape (args : Args) (video_ith : Z) (video_info : Annotation)
    (tr : list event) (r : result string) : Prop :=
  exists k : nat,
    put_keys tr = map (frame_key video_ith) (Py.range (Z.of_nat k)) /\
    ((exists e, r = Raise e /\ rmtree_targets tr = [] /\
                ((0 < k)%nat -> e = Exn RuntimeError "Video exists in database")) \/
     (r = Ok "OK" /\
      rmtree_targets tr
      = if not_remove args then [] else [video_tmp_dir args video_info])).

(** The directory listings that a run was given. *)
Definition listing_of (ev : event) : option (list Path) :=
  match ev with
  | Ev (Iterdir _) (Ok files) => Some files
  | _ => None
  end.

Definition listings (tr : list event) : list (list Path) := omap listing_of tr.

(** The leading part of a file name that [video_to_frames] reads as the
    frame number. *)
Definition stem (f : Path) : string := List.hd "" (Py.split_on "." (Pathlib.name f)).

(** The group of a video in the store when its frames [blobs] were written
    under the keys of the positions 0, 1, 2, ... *)
Definition clip_of (blobs : list bytes) : gmap string bytes :=
  list_to_map (map (fun '(p, b) => (Py.fmt08d p, b)) (enumerate blobs)).

(** [random.randint(a, b)] returns a number of [a..b]; on an empty range
    it has nothing to return and raises. *)
Definition randint_contract (randint : Z -> Z -> result Z) : Prop :=
  forall a b r, randint a b = Ok r -> a <= r <= b.

(** A store with the one clip [blobs] for the video of index 0. *)
Definition stored_clip (n c : Z) (blobs : list bytes) : Loader.VideoDataset :=
  {| Loader.num_frames_per_clip := n;
     Loader.crop_size := c;
     Loader.annotation := [Sim.video "/data/c/other.mp4"];
     Loader.database := {[ Py.fmt08d 0 := clip_of blobs ]} |}.

(** The file that a request reads. *)
Definition read_path (ev : event) : option Path :=
  match ev with
  | Ev (ReadFile p) _ => Some p
  | _ => None
  end.

Definition read_paths (tr : list event) : list Path := omap read_path tr.

(** A frame whose file is an entry of the directory [tmp], as
    [tmp.iterdir()] yields it: the directory joined with one name. *)
Definition listed_under (tmp : Path) (f : frame) : Prop :=
  exists c, f.2 = Pathlib.join tmp {| is_abs := false; comps := [c] |}.

(** A [randint] that draws the lower end of the range. *)
Definition randint_low (a b : Z) : result Z :=
  if b <? a then Raise (Exn ValueError "empty range for randrange()") else Ok a.

(** * Properties *)

(** ** Python lists *)

Section ListFacts.

Context {A : Type}.

Lemma index_in_range (l : list A) (i : nat) (x : A) :
  l !! i = Some x -> Py.index l (Z.of_nat i) = Ok x.
Proof.
  intros Hx. pose proof (lookup_lt_Some _ _ _ Hx) as Hlt.
  unfold Py.index.
  destruct (Z.ltb_spec (Z.of_nat i) 0) as [Hneg|_]; [lia|].
  destruct (Z.leb_spec 0 (Z.of_nat i)) as [_|Hneg]; [|lia].
  destruct (Z.ltb_spec (Z.of_nat i) (Z.of_nat (length l))) as [_|Hge]; [|lia].
  cbn. rewrite Nat2Z.id, Hx. reflexivity.
Qed.

Lemma index_all_from (pre l : list A) :
  rmapM (Py.index (pre ++ l)) (map Z.of_nat (seq (length pre) (length l))) = Ok l.
Proof.
  revert pre. induction l as [|x t IH]; intros pre; [reflexivity|].
  cbn [length seq map rmapM].
  rewrite (index_in_range (pre ++ x :: t) (length pre) x).
  2:{ rewrite lookup_app_r by lia. by rewrite Nat.sub_diag. }
  cbn [rbind].
  specialize (IH (pre ++ [x])).
  rewrite <- app_assoc, length_app in IH. cbn in IH.
  rewrite Nat.add_1_r in IH. rewrite IH. reflexivity.
Qed.

Lemma index_all (l : list A) :
  rmapM (Py.index l) (Py.range (Z.of_nat (length l))) = Ok l.
Proof. unfold Py.range. rewrite Nat2Z.id. apply (index_all_from [] l). Qed.

Lemma stride_from_lookup (k skip : nat) (l : list A) (i : nat) :
  (0 < k)%nat -> Py.stride_from k skip l !! i = l !! (skip + i * k)%nat.
Proof.
  intros Hk. revert skip i.
  induction l as [|x t IH]; intros skip i; [by rewrite !lookup_nil|].
  destruct skip as [|s]; cbn [Py.stride_from].
  - destruct i as [|i]; [reflexivity|].
    cbn [lookup list_lookup]. rewrite IH.
    replace (0 + S i * k)%nat with (S (k - 1 + i * k)) by lia.
    reflexivity.
  - rewrite IH. reflexivity.
Qed.

Lemma stride_from_length (k skip : nat) (l : list A) :
  (0 < k)%nat ->
  length (Py.stride_from k skip l) = ((length l + k - 1 - skip) / k)%nat.
Proof.
  intros Hk. revert skip.
  induction l as [|x t IH]; intros skip.
  - cbn. symmetry. apply Nat.div_small. lia.
  - destruct skip as [|s]; cbn [Py.stride_from length].
    + rewrite IH.
      replace (length t + k - 1 - (k - 1))%nat with (length t) by lia.
      replace (S (length t) + k - 1 - 0)%nat with (length t + 1 * k)%nat by lia.
      rewrite Nat.div_add by lia. lia.
    + rewrite IH. f_equal. lia.
Qed.

End ListFacts.

(** ** Rounding *)

(** [round] gives a nearest integer, the even one of two. *)
Lemma round_spec (q : Q) :
  2 * (Py.round q * Z.pos (Qden q) - Qnum q) <= Z.pos (Qden q) /\
  2 * (Qnum q - Py.round q * Z.pos (Qden q)) <= Z.pos (Qden q) /\
  (2 * (Py.round q * Z.pos (Qden q) - Qnum q) = Z.pos (Qden q) -> Z.even (Py.round q) = true) /\
  (2 * (Qnum q - Py.round q * Z.pos (Qden q)) = Z.pos (Qden q) -> Z.even (Py.round q) = true).
Proof.
  unfold Py.round. set (n := Qnum q). set (d := Z.pos (Qden q)). cbn zeta.
  assert (Hd : 0 < d) by (unfold d; lia).
  pose proof (Z.div_mod n d ltac:(lia)) as Hdm.
  pose proof (Z.mod_pos_bound n d Hd) as Hm.
  set (f := n / d) in *. set (m := n mod d) in *.
  destruct (Z.compare_spec (2 * m) d) as [Heq|Hlt|Hgt].
  - destruct (Z.even f) eqn:Hev.
    + repeat split; try nia. intros _. exact Hev.
    + repeat split; try nia. intros _.
      replace (f + 1) with (Z.succ f) by lia.
      rewrite Z.even_succ, <- Z.negb_even, Hev. reflexivity.
  - repeat split; nia.
  - repeat split; nia.
Qed.

Lemma round_mono (q q' : Q) : (q <= q')%Q -> Py.round q <= Py.round q'.
Proof.
  intros Hle. unfold Qle in Hle.
  destruct (round_spec q) as (H1 & _ & H3 & _).
  destruct (round_spec q') as (_ & H2' & _ & H4').
  set (r := Py.round q) in *. set (r' := Py.round q') in *.
  set (n := Qnum q) in *. set (d := Z.pos (Qden q)) in *.
  set (n' := Qnum q') in *. set (d' := Z.pos (Qden q')) in *.
  assert (Hd : 0 < d) by (unfold d; lia).
  assert (Hd' : 0 < d') by (unfold d'; lia).
  destruct (Z.le_gt_cases r r') as [|Hgt]; [assumption|exfalso].
  assert (Ha : (2 * r - 1) * (d * d') <= 2 * (n * d')) by nia.
  assert (Hb : 2 * (n' * d) <= (2 * r' + 1) * (d * d')) by nia.
  assert (Hdd : 0 < d * d') by nia.
  assert (Hr : r = r' + 1) by nia.
  assert (E1 : 2 * (r * d - n) = d) by nia.
  assert (E2 : 2 * (n' - r' * d') = d') by nia.
  specialize (H3 E1). specialize (H4' E2).
  rewrite Hr in H3. replace (r' + 1) with (Z.succ r') in H3 by lia.
  rewrite Z.even_succ, <- Z.negb_even, H4' in H3. discriminate.
Qed.

Lemma round_half (q : Q) :
  (inject_Z (Py.round q) - (1 # 2) <= q <= inject_Z (Py.round q) + (1 # 2))%Q.
Proof.
  destruct (round_spec q) as (H1 & H2 & _).
  destruct q as [n d]. cbn [Qnum Qden] in *.
  unfold Qle, Qminus, Qplus, Qopp, inject_Z. cbn. split; lia.
Qed.

Lemma round_int (q : Q) (z : Z) : (q == inject_Z z)%Q -> Py.round q = z.
Proof.
  intros Heq. destruct (round_spec q) as (H1 & H2 & _).
  unfold Qeq, inject_Z in Heq. cbn in Heq.
  assert (Hd : 0 < Z.pos (Qden q)) by lia. nia.
Qed.

Lemma pow2_pos (e : Z) : (0 < 2 ^ e)%Q.
Proof. by apply Qpower_0_lt. Qed.

Lemma pow2_add (a b : Z) : (2 ^ (a + b) == 2 ^ a * 2 ^ b)%Q.
Proof. by apply Qpower_plus. Qed.

Lemma log2_pow2 (a : Z) :
  0 < a -> (2 ^ Z.log2 a <= inject_Z a)%Q /\ (inject_Z a < 2 ^ (Z.log2 a + 1))%Q.
Proof.
  intros Ha. destruct (Z.log2_spec a Ha) as [Hlo Hhi].
  pose proof (Z.log2_nonneg a) as Hnn.
  split.
  - rewrite <- (Zpower_Qpower 2) by exact Hnn. by rewrite <- Zle_Qle.
  - rewrite <- (Zpower_Qpower 2) by lia. rewrite <- Zlt_Qlt.
    replace (Z.log2 a + 1) with (Z.succ (Z.log2 a)) by lia. lia.
Qed.

(** The scaling of [round53] brings [q] into the range of the 53-bit
    significands. *)
Lemma round53_scaled (q : Q) :
  (0 < q)%Q ->
  exists e, Py.round53 q = (inject_Z (Py.round (q / 2 ^ e)) * 2 ^ e)%Q /\
            (2 ^ 52 <= q / 2 ^ e)%Q /\ (q / 2 ^ e < 2 ^ 53)%Q.
Proof.
  intros Hq. unfold Py.round53.
  set (e1 := Z.log2 (Qnum q) - Z.log2 (Z.pos (Qden q)) - 53).
  destruct q as [a b]. cbn [Qnum Qden] in *.
  assert (Ha : 0 < a) by (unfold Qlt in Hq; cbn in Hq; lia).
  destruct (log2_pow2 a Ha) as [HA HA'].
  destruct (log2_pow2 (Z.pos b) ltac:(lia)) as [HB' HB].
  pose proof (pow2_pos e1) as HE.
  pose proof (pow2_pos (Z.log2 (Z.pos b))) as HBpos.
  assert (Hrel : (2 ^ Z.log2 a == 2 ^ 52 * 2 ^ e1 * 2 ^ (Z.log2 (Z.pos b) + 1))%Q).
  { rewrite <- !pow2_add. f_equiv. unfold e1. lia. }
  assert (Hrel' : (2 ^ (Z.log2 a + 1) == 2 ^ 53 * (2 ^ e1 * 2 ^ 1) * 2 ^ Z.log2 (Z.pos b))%Q).
  { rewrite <- !pow2_add. f_equiv. unfold e1. lia. }
  assert (Hb1 : (2 ^ (Z.log2 (Z.pos b) + 1) == 2 ^ Z.log2 (Z.pos b) * 2)%Q).
  { rewrite pow2_add. reflexivity. }
  assert (H1 : (2 ^ 1 == 2)%Q) by reflexivity.
  assert (H53 : (2 ^ 53 == 2 ^ 52 * 2)%Q) by reflexivity.
  assert (H52 : (0 < 2 ^ 52)%Q) by reflexivity.
  assert (Hib : (0 < inject_Z (Z.pos b))%Q) by reflexivity.
  assert (Hqd : (a # b == inject_Z a / inject_Z (Z.pos b))%Q) by apply Qmake_Qdiv.
  destruct (Qlt_le_dec ((a # b) / 2 ^ e1) (2 ^ 53)) as [Hlt|Hge].
  - exists e1. split; [reflexivity|]. split; [|exact Hlt].
    apply Qle_shift_div_l; [exact HE|]. rewrite Hqd.
    apply Qle_shift_div_l; [exact Hib|].
    set (A := (2 ^ Z.log2 a)%Q) in *. set (B := (2 ^ Z.log2 (Z.pos b))%Q) in *.
    set (B' := (2 ^ (Z.log2 (Z.pos b) + 1))%Q) in *.
    set (E := (2 ^ e1)%Q) in *. set (T := (2 ^ 52)%Q) in *.
    set (ib := inject_Z (Z.pos b)) in *. set (ia := inject_Z a) in *.
    nra.
  - exists (e1 + 1). split; [reflexivity|].
    assert (Hq2 : (2 ^ 53 * 2 ^ e1 <= a # b)%Q).
    { assert (Hqy : ((a # b) / 2 ^ e1 * 2 ^ e1 == a # b)%Q)
        by (field; intros H0; rewrite H0 in HE; discriminate).
      rewrite <- Hqy.
      apply Qmult_le_compat_r; [exact Hge|]. by apply Qlt_le_weak. }
    split.
    + apply Qle_shift_div_l; [apply pow2_pos|]. rewrite pow2_add, H1.
      rewrite H53 in Hq2.
      set (E := (2 ^ e1)%Q) in *. set (T := (2 ^ 52)%Q) in *. nra.
    + apply Qlt_shift_div_r; [apply pow2_pos|]. rewrite pow2_add. rewrite Hqd.
      apply Qlt_shift_div_r; [exact Hib|].
      set (A' := (2 ^ (Z.log2 a + 1))%Q) in *. set (B := (2 ^ Z.log2 (Z.pos b))%Q) in *.
      set (E := (2 ^ e1)%Q) in *. set (T := (2 ^ 53)%Q) in *. set (U := (2 ^ 1)%Q) in *.
      set (ib := inject_Z (Z.pos b)) in *. set (ia := inject_Z a) in *.
      assert (HU : (0 < U)%Q) by reflexivity.
      assert (HT : (0 < T)%Q) by reflexivity.
      nra.
Qed.

(** [round53] is the rounding to the nearest number of 53 significant
    bits: its value is a significand of 53 bits times a power of two that
    lies within half a unit of the last place of [q], and of two such
    numbers it is the one with the even significand. *)
Lemma round53_nearest (q : Q) :
  (0 < q)%Q ->
  exists e m,
    Py.round53 q = (inject_Z m * 2 ^ e)%Q /\
    2 ^ 52 <= m <= 2 ^ 53 /\
    (inject_Z m - (1 # 2) <= q / 2 ^ e <= inject_Z m + (1 # 2))%Q /\
    ((q / 2 ^ e == inject_Z m - (1 # 2))%Q \/ (q / 2 ^ e == inject_Z m + (1 # 2))%Q ->
     Z.even m = true).
Proof.
  intros Hq. destruct (round53_scaled q Hq) as (e & Hval & Hlo & Hhi).
  exists e, (Py.round (q / 2 ^ e)). split; [exact Hval|]. split; [|split].
  - split.
    + change (2 ^ 52) with (Py.round (inject_Z (2 ^ 52))). by apply round_mono.
    + change (2 ^ 53) with (Py.round (inject_Z (2 ^ 53))). apply round_mono.
      by apply Qlt_le_weak.
  - apply round_half.
  - destruct (round_spec (q / 2 ^ e)) as (_ & _ & H3 & H4).
    set (y := (q / 2 ^ e)%Q) in *. destruct y as [n d]. cbn [Qnum Qden] in *.
    unfold Qeq, Qminus, Qplus, Qopp, inject_Z. cbn.
    intros [H|H]; [apply H3|apply H4]; lia.
Qed.

Lemma round53_err (q : Q) :
  (0 < q)%Q -> (q - q * Py.eps <= Py.round53 q <= q + q * Py.eps)%Q.
Proof.
  intros Hq. destruct (round53_scaled q Hq) as (e & -> & Hy & _).
  pose proof (pow2_pos e) as HP.
  pose proof (round_half (q / 2 ^ e)) as [Hlo Hhi].
  assert (Hqy : (q == q / 2 ^ e * 2 ^ e)%Q)
    by (field; intros H0; rewrite H0 in HP; discriminate).
  set (P := (2 ^ e)%Q) in *. set (y := (q / P)%Q) in *.
  set (m := inject_Z (Py.round y)) in *.
  assert (H52 : (2 ^ 52 == 4503599627370496 # 1)%Q) by reflexivity.
  rewrite H52 in Hy.
  assert (Hhalf : (P * (1 # 2) <= y * P * Py.eps)%Q) by (unfold Py.eps; nra).
  split; rewrite Hqy; nra.
Qed.

Lemma float_of_err (q : Q) :
  (0 <= q)%Q -> (q - q * Py.eps <= Py.float_of q <= q + q * Py.eps)%Q.
Proof.
  intros Hq. unfold Py.float_of. pose proof (Qred_correct q) as Hr.
  set (r := Qred q) in *. cbn zeta.
  assert (Hr0 : (0 <= r)%Q) by lra.
  assert (Hcore : (r - r * Py.eps
                   <= (if Qnum r mod Z.pos (Qden r) =? 0 then r
                       else if 0 <? Qnum r then Py.round53 r else - Py.round53 (- r))
                   <= r + r * Py.eps)%Q).
  { destruct (Qnum r mod Z.pos (Qden r) =? 0) eqn:Hint.
    { unfold Py.eps. split; nra. }
    destruct (Z.ltb_spec 0 (Qnum r)) as [Hpos|Hneg].
    - apply round53_err. unfold Qlt. cbn. lia.
    - exfalso. assert (Qnum r = 0).
      { unfold Qle in Hr0. cbn in Hr0. lia. }
      rewrite H in Hint. cbn in Hint. discriminate. }
  destruct Hcore as [Hlo Hhi]. unfold Py.eps in *. split; lra.
Qed.

Lemma Qred_inject_Z (z : Z) : Qred (inject_Z z) = inject_Z z.
Proof.
  unfold Qred, inject_Z.
  generalize (Z.ggcd_correct_divisors z 1) (Z.ggcd_gcd z 1).
  rewrite Z.gcd_1_r.
  destruct (Z.ggcd z 1) as (g, (aa, bb)). cbn. intros [Ha Hb] ->.
  rewrite Z.mul_1_l in Ha, Hb. by subst.
Qed.

Lemma float_of_int (q : Q) (z : Z) : (q == inject_Z z)%Q -> Py.float_of q = inject_Z z.
Proof.
  intros Heq. unfold Py.float_of.
  rewrite (Qred_complete _ _ Heq), Qred_inject_Z. cbn [Qnum Qden inject_Z].
  by rewrite Z.mod_1_r.
Qed.


Lemma inject_Z_pred (z : Z) : (inject_Z (z - 1) == inject_Z z - 1)%Q.
Proof.
  replace (z - 1) with (z + -1) by lia. rewrite inject_Z_plus. reflexivity.
Qed.

Section Positions.

Variables tot n : Z.
Hypothesis Htot : 1 <= tot.
Hypothesis Hn : 2 <= n.

Lemma ratio_spec :
  (0 <= uniform_ratio tot n)%Q /\
  (uniform_ratio tot n * inject_Z (n - 1) == inject_Z (tot - 1))%Q.
Proof.
  assert (Hn1 : (1 <= inject_Z (n - 1))%Q).
  { change 1%Q with (inject_Z 1). rewrite <- Zle_Qle. lia. }
  assert (Ht : (0 <= inject_Z tot - 1)%Q).
  { unfold Qminus. change 1%Q with (inject_Z 1).
    rewrite <- inject_Z_opp, <- inject_Z_plus.
    change 0%Q with (inject_Z 0). rewrite <- Zle_Qle. lia. }
  split.
  - unfold uniform_ratio. apply Qle_shift_div_l; [lra|]. lra.
  - unfold uniform_ratio. rewrite (inject_Z_pred tot). field. lra.
Qed.

Lemma step_bounds :
  (uniform_ratio tot n - uniform_ratio tot n * Py.eps
   <= uniform_step tot n
   <= uniform_ratio tot n + uniform_ratio tot n * Py.eps)%Q.
Proof. apply float_of_err, ratio_spec. Qed.

Lemma uniform_pos_bounds (x : Z) :
  tot <= 2 ^ 50 -> 0 <= x <= n - 1 -> 0 <= uniform_pos tot n x <= tot - 1.
Proof.
  intros Hbig Hx. unfold uniform_pos.
  destruct ratio_spec as [Hr Hrn]. destruct step_bounds as [Hlo Hhi].
  assert (Hxq : (0 <= inject_Z x)%Q).
  { change 0%Q with (inject_Z 0). rewrite <- Zle_Qle. lia. }
  assert (Hxn : (inject_Z x <= inject_Z (n - 1))%Q) by (rewrite <- Zle_Qle; lia).
  assert (Hn1 : (1 <= inject_Z (n - 1))%Q).
  { change 1%Q with (inject_Z 1). rewrite <- Zle_Qle. lia. }
  assert (HT : (inject_Z (tot - 1) <= 1125899906842624 # 1)%Q).
  { change (1125899906842624 # 1)%Q with (inject_Z (2 ^ 50)). rewrite <- Zle_Qle. lia. }
  assert (Hs : (0 <= uniform_step tot n)%Q) by (unfold Py.eps in *; nra).
  assert (Hxs : (0 <= inject_Z x * uniform_step tot n)%Q) by nra.
  destruct (float_of_err _ Hxs) as [Hvlo Hvhi].
  set (v := Py.float_of (inject_Z x * uniform_step tot n)) in *.
  destruct (round_half v) as [Hrlo Hrhi].
  assert (Hns : (inject_Z x * uniform_step tot n
                 <= inject_Z (tot - 1) + inject_Z (tot - 1) * Py.eps)%Q).
  { apply (Qle_trans _ (inject_Z (n - 1) * uniform_step tot n)); [nra|].
    rewrite <- Hrn. unfold Py.eps in *. nra. }
  split.
  - change 0 with (Py.round 0). apply round_mono. unfold Py.eps in *. nra.
  - assert (Hlt : (inject_Z (Py.round v) < inject_Z (tot - 1) + 1)%Q) by (unfold Py.eps in *; nra).
    change 1%Q with (inject_Z 1) in Hlt. rewrite <- inject_Z_plus, <- Zlt_Qlt in Hlt. lia.
Qed.

Lemma uniform_pos_first : uniform_pos tot n 0 = 0.
Proof.
  unfold uniform_pos.
  assert (H0 : (inject_Z 0 * uniform_step tot n == inject_Z 0)%Q)
    by (change (inject_Z 0) with 0%Q; ring).
  rewrite (float_of_int _ 0 H0). reflexivity.
Qed.

Lemma uniform_pos_last : tot <= 2 ^ 50 -> uniform_pos tot n (n - 1) = tot - 1.
Proof.
  intros Hbig.
  pose proof (uniform_pos_bounds (n - 1) Hbig ltac:(lia)) as [_ Hup].
  apply Z.le_antisymm; [exact Hup|].
  unfold uniform_pos.
  destruct ratio_spec as [Hr Hrn]. destruct step_bounds as [Hlo Hhi].
  assert (Hn1 : (1 <= inject_Z (n - 1))%Q).
  { change 1%Q with (inject_Z 1). rewrite <- Zle_Qle. lia. }
  assert (HT : (inject_Z (tot - 1) <= 1125899906842624 # 1)%Q).
  { change (1125899906842624 # 1)%Q with (inject_Z (2 ^ 50)). rewrite <- Zle_Qle. lia. }
  assert (HT0 : (0 <= inject_Z (tot - 1))%Q).
  { change 0%Q with (inject_Z 0). rewrite <- Zle_Qle. lia. }
  assert (Hs : (0 <= uniform_step tot n)%Q) by (unfold Py.eps in *; nra).
  assert (Hxs : (0 <= inject_Z (n - 1) * uniform_step tot n)%Q) by nra.
  destruct (float_of_err _ Hxs) as [Hvlo Hvhi].
  set (v := Py.float_of (inject_Z (n - 1) * uniform_step tot n)) in *.
  destruct (round_half v) as [Hrlo Hrhi].
  assert (Hns : (inject_Z (tot - 1) - inject_Z (tot - 1) * Py.eps
                 <= inject_Z (n - 1) * uniform_step tot n)%Q).
  { rewrite <- Hrn. unfold Py.eps in *. nra. }
  assert (Hgt : (inject_Z (tot - 1) - 1 < inject_Z (Py.round v))%Q) by (unfold Py.eps in *; nra).
  change 1%Q with (inject_Z 1) in Hgt.
  unfold Qminus in Hgt. rewrite <- inject_Z_opp, <- inject_Z_plus, <- Zlt_Qlt in Hgt. lia.
Qed.

Lemma uniform_pos_mono (x x' : Z) :
  n <= 2 ^ 52 -> 0 <= x <= x' -> x' <= n - 1 -> uniform_pos tot n x <= uniform_pos tot n x'.
Proof.
  intros Hbig Hx Hx'. unfold uniform_pos.
  destruct (Z.eq_dec x x') as [->|Hne]; [lia|].
  apply round_mono.
  destruct ratio_spec as [Hr Hrn]. destruct step_bounds as [Hlo Hhi].
  assert (Hxq : (0 <= inject_Z x)%Q).
  { change 0%Q with (inject_Z 0). rewrite <- Zle_Qle. lia. }
  assert (Hxx : (inject_Z x + 1 <= inject_Z x')%Q).
  { change 1%Q with (inject_Z 1). rewrite <- inject_Z_plus, <- Zle_Qle. lia. }
  assert (Hxb : (inject_Z x + 2 <= 4503599627370496 # 1)%Q).
  { change (4503599627370496 # 1)%Q with (inject_Z (2 ^ 52)).
    change 2%Q with (inject_Z 2). rewrite <- inject_Z_plus, <- Zle_Qle. lia. }
  assert (Hs : (0 <= uniform_step tot n)%Q) by (unfold Py.eps in *; nra).
  assert (Hxs : (0 <= inject_Z x * uniform_step tot n)%Q) by nra.
  assert (Hxs' : (0 <= inject_Z x' * uniform_step tot n)%Q) by nra.
  destruct (float_of_err _ Hxs) as [_ Hvhi].
  destruct (float_of_err _ Hxs') as [Hvlo' _].
  apply (Qle_trans _ _ _ Hvhi). eapply Qle_trans; [|exact Hvlo'].
  assert (Hcoef : (inject_Z x * (1 + Py.eps) <= inject_Z x' * (1 - Py.eps))%Q)
    by (unfold Py.eps; lra).
  nra.
Qed.

End Positions.

(** ** The sampler *)

Section SamplerFacts.

Variable shuffle : list frame -> list frame.

(** With a valid parameter, [sample_frames] is the branch of its mode. *)
Lemma sample_frames_valid (args : Args) (frames : list frame) (n : Z) :
  sample_mode args <> 0 -> Py.int (sample args) = Ok n -> 0 < n ->
  sample_frames shuffle args frames =
    let tot := Z.of_nat (length frames) in
    if sample_mode args =? 1 then rmapM (Py.index frames) (uniform_index tot n)
    else if sample_mode args =? 2 then
      Ok (Py.sort_by fst (take (Z.to_nat (Z.min n tot)) (shuffle frames)))
    else if sample_mode args =? 3 then Ok (Py.slice_step frames n)
    else Raise (Exn AttributeError "Sample mode is not supported").
Proof.
  intros Hmode Hn Hpos. unfold sample_frames.
  destruct (Z.eqb_spec (sample_mode args) 0) as [|_]; [contradiction|].
  rewrite Hn. cbn [rbind].
  destruct (Z.ltb_spec 0 n) as [_|]; [|lia]. reflexivity.
Qed.

(** A step of 1: no rounding anywhere. *)
Lemma round_unit_step (tot x : Z) :
  2 <= tot ->
  Py.round
    (Py.float_of (inject_Z x * Py.float_of ((inject_Z tot - 1) / inject_Z (tot - 1))))%Q
  = x.
Proof.
  intros Htot.
  assert (Hone : ((inject_Z tot - 1) / inject_Z (tot - 1) == inject_Z 1)%Q).
  { rewrite (inject_Z_pred tot). change (inject_Z 1) with 1%Q. field.
    rewrite <- (inject_Z_pred tot). change 0%Q with (inject_Z 0).
    rewrite inject_Z_injective. lia. }
  rewrite (float_of_int _ 1 Hone).
  assert (Hx : (inject_Z x * inject_Z 1 == inject_Z x)%Q)
    by (change (inject_Z 1) with 1%Q; ring).
  rewrite (float_of_int _ x Hx). by apply round_int.
Qed.

Lemma uniform_index_full (tot : Z) :
  2 <= tot -> uniform_index tot tot = Py.range tot.
Proof.
  intros Htot. unfold uniform_index.
  destruct (Z.eqb_spec tot 1) as [|_]; [lia|].
  rewrite <- (map_id (Py.range tot)) at 2.
  apply map_ext. intros x. apply round_unit_step, Htot.
Qed.

End SamplerFacts.

(** C1: in uniform mode with [n == 1], a non-empty frame list of length N
    yields exactly one frame, the one at position [floor(N/2)]. *)
Theorem uniform_one_returns_middle (shuffle : list frame -> list frame)
    (args : Args) (frames : list frame) :
  sample_mode args = 1 ->
  Py.int (sample args) = Ok 1 ->
  (1 <= length frames)%nat ->
  exists f,
    frames !! (length frames / 2)%nat = Some f /\
    sample_frames shuffle args frames = Ok [f].
Proof.
  intros Hmode Hn Hlen.
  destruct (lookup_lt_is_Some_2 frames (length frames / 2)%nat) as [f Hf].
  { apply Nat.div_lt; lia. }
  exists f. split; [exact Hf|].
  rewrite (sample_frames_valid shuffle args frames 1) by (auto; lia).
  rewrite Hmode. cbn [Z.eqb Pos.eqb]. unfold uniform_index. cbn [Z.eqb Pos.eqb rmapM].
  rewrite Z.shiftr_div_pow2 by lia.
  change (2 ^ 1) with (Z.of_nat 2). rewrite <- Nat2Z.inj_div.
  rewrite (index_in_range _ _ _ Hf). reflexivity.
Qed.

Lemma uniform_one_returns_middle_witness :
  exists f,
    numbered_frames 5 !! (length (numbered_frames 5) / 2)%nat = Some f /\
    sample_frames (fun l => l) (Sim.args0 "/tmp" 1 "1" 0) (numbered_frames 5) = Ok [f].
Proof.
  apply (uniform_one_returns_middle (fun l => l) (Sim.args0 "/tmp" 1 "1" 0) (numbered_frames 5));
    [reflexivity | reflexivity | simpl; lia].
Defined.

(** C2: in modulus mode with stride [k > 0], the result is the frames at
    the original positions 0, k, 2k, ... in that order, [ceil(N/k)] of
    them; a list of 10 frames sampled with stride 3 gives the frames at
    positions 0, 3, 6 and 9. *)
Theorem modulus_returns_every_kth (shuffle : list frame -> list frame)
    (args : Args) (frames : list frame) (k : Z) :
  sample_mode args = 3 ->
  Py.int (sample args) = Ok k ->
  0 < k ->
  exists r,
    sample_frames shuffle args frames = Ok r /\
    Z.of_nat (length r) = (Z.of_nat (length frames) + k - 1) / k /\
    (forall i : nat, (i < length r)%nat -> r !! i = frames !! (i * Z.to_nat k)%nat) /\
    (length frames = 10%nat -> k = 3 ->
     forall d, r = [nth 0 frames d; nth 3 frames d; nth 6 frames d; nth 9 frames d]).
Proof.
  intros Hmode Hn Hk.
  exists (Py.slice_step frames k).
  rewrite (sample_frames_valid shuffle args frames k) by (auto; lia).
  rewrite Hmode. cbn [Z.eqb Pos.eqb].
  assert (Hk' : (0 < Z.to_nat k)%nat) by lia.
  unfold Py.slice_step. repeat split.
  - rewrite stride_from_length by exact Hk'.
    rewrite Nat2Z.inj_div. f_equal; lia.
  - intros i _. rewrite stride_from_lookup by exact Hk'. reflexivity.
  - intros Hlen -> d.
    do 11 (destruct frames as [|? frames]; try discriminate Hlen).
    reflexivity.
Qed.

Lemma modulus_returns_every_kth_witness :
  exists r,
    sample_frames (fun l => l) (Sim.args0 "/tmp" 3 "3" 0) (numbered_frames 10) = Ok r /\
    Z.of_nat (length r) = 4 /\
    map fst r = [1; 4; 7; 10].
Proof.
  destruct (modulus_returns_every_kth (fun l => l) (Sim.args0 "/tmp" 3 "3" 0)
              (numbered_frames 10) 3) as (r & Hr & Hlen & _ & Hten);
    [reflexivity | reflexivity | lia |].
  exists r. repeat split; [exact Hr | exact Hlen |].
  rewrite (Hten eq_refl eq_refl (0, Pathlib.of_str "")). reflexivity.
Defined.

(** C4: in uniform mode with [n == N] and N >= 2, the selected positions
    [round(i * (N-1)/(n-1))] are exactly 0..N-1, without duplicates, and
    the result is all N frames in their original order. *)
Theorem uniform_full_returns_all (shuffle : list frame -> list frame)
    (args : Args) (frames : list frame) :
  sample_mode args = 1 ->
  Py.int (sample args) = Ok (Z.of_nat (length frames)) ->
  (2 <= length frames)%nat ->
  let N := Z.of_nat (length frames) in
  uniform_index N N = Py.range N /\
  NoDup (uniform_index N N) /\
  sample_frames shuffle args frames = Ok frames.
Proof.
  intros Hmode Hn Hlen N.
  assert (Hidx : uniform_index N N = Py.range N)
    by (apply uniform_index_full; subst N; lia).
  split; [exact Hidx|]. split.
  - rewrite Hidx. unfold Py.range.
    apply NoDup_fmap_2; [apply Nat2Z.inj'|apply NoDup_seq].
  - rewrite (sample_frames_valid shuffle args frames N) by (auto; lia).
    rewrite Hmode. cbn [Z.eqb Pos.eqb]. fold N. rewrite Hidx.
    apply index_all.
Qed.

Lemma uniform_full_returns_all_witness :
  let N := Z.of_nat (length (numbered_frames 4)) in
  uniform_index N N = Py.range N /\
  NoDup (uniform_index N N) /\
  sample_frames (fun l => l) (Sim.args0 "/tmp" 1 "4" 0) (numbered_frames 4)
    = Ok (numbered_frames 4).
Proof.
  apply (uniform_full_returns_all (fun l => l) (Sim.args0 "/tmp" 1 "4" 0) (numbered_frames 4));
    [reflexivity | reflexivity | simpl; lia].
Defined.

(** ** The stable sort *)

Section SortFacts.

Context {A : Type} (key : A -> Z).

Lemma insert_by_perm (x : A) (l : list A) : Py.insert_by key x l ≡ₚ x :: l.
Proof.
  induction l as [|y t IH]; cbn; [reflexivity|].
  destruct (key x <? key y); [reflexivity|].
  rewrite IH. apply Permutation_swap.
Qed.

Lemma insert_by_sorted (x : A) (l : list A) :
  StronglySorted (key_le key) l -> StronglySorted (key_le key) (Py.insert_by key x l).
Proof.
  induction 1 as [|y t Ht IH Hy]; cbn.
  - repeat constructor.
  - destruct (Z.ltb_spec (key x) (key y)) as [Hlt|Hge].
    + constructor; [by constructor|].
      constructor; [unfold key_le; lia|].
      eapply Forall_impl; [exact Hy|]. unfold key_le. intros z Hz. lia.
    + constructor; [exact IH|].
      rewrite insert_by_perm. by constructor.
Qed.

Lemma foldl_insert_perm (acc l : list A) :
  foldl (fun acc x => Py.insert_by key x acc) acc l ≡ₚ l ++ acc.
Proof.
  revert acc. induction l as [|x t IH]; intros acc; cbn; [reflexivity|].
  rewrite IH, insert_by_perm. by rewrite Permutation_middle.
Qed.

Lemma foldl_insert_sorted (acc l : list A) :
  StronglySorted (key_le key) acc ->
  StronglySorted (key_le key) (foldl (fun acc x => Py.insert_by key x acc) acc l).
Proof.
  revert acc. induction l as [|x t IH]; intros acc Hacc; cbn; [exact Hacc|].
  apply IH, insert_by_sorted, Hacc.
Qed.

Lemma sort_by_perm (l : list A) : Py.sort_by key l ≡ₚ l.
Proof. unfold Py.sort_by. rewrite foldl_insert_perm. by rewrite app_nil_r. Qed.

Lemma sort_by_sorted (l : list A) : StronglySorted (key_le key) (Py.sort_by key l).
Proof. apply foldl_insert_sorted. constructor. Qed.






End SortFacts.




(** ** Programs and their runs *)

Section ProgFacts.

Context {A : Type}.


Lemma always_bind {B} (P : event -> Prop) (Q : result B -> Prop)
    (p : prog A) (f : A -> prog B) :
  always P (fun r => match r with
                     | Ok a => always P Q (f a)
                     | Raise e => Q (Raise e)
                     end) p ->
  always P Q (pbind p f).
Proof.
  induction p as [a|e|X o k IH]; cbn; auto.
  intros H r. destruct (H r). split; auto.
Qed.

Lemma always_call (P : event -> Prop) (Q : result A -> Prop) (o : op A) :
  (forall r, P (Ev o r) /\ Q r) -> always P Q (call o).
Proof. intros H r. destruct (H r). split; [assumption|]. by destruct r. Qed.

Lemma always_lift (P : event -> Prop) (Q : result A -> Prop) (r : result A) :
  Q r -> always P Q (lift r).
Proof. by destruct r. Qed.

End ProgFacts.

Section RunFacts.

Context {St : Type}.
Variable handle : forall X, op X -> St -> St * result X.

Lemma exec_always {A} (P : event -> Prop) (Q : result A -> Prop)
    (p : prog A) (s : St) :
  always P Q p -> Forall P (exec handle p s).1.2 /\ Q (exec handle p s).2.
Proof.
  revert s. induction p as [a|e|X o k IH]; intros s Hp; cbn.
  - by split.
  - by split.
  - destruct (handle X o s) as [s1 r] eqn:Hh.
    destruct (Hp r) as [HP Hk].
    specialize (IH r s1 Hk).
    destruct (exec handle (k r) s1) as [[s2 tr] res]. cbn in *.
    destruct IH. split; [by constructor|assumption].
Qed.

Lemma exec_bind {A B} (p : prog A) (f : A -> prog B) (s : St) :
  exec handle (pbind p f) s =
    match exec handle p s with
    | (s1, tr1, Ok a) =>
        let '(s2, tr2, r) := exec handle (f a) s1 in (s2, tr1 ++ tr2, r)
    | (s1, tr1, Raise e) => (s1, tr1, Raise e)
    end.
Proof.
  revert s. induction p as [a|e|X o k IH]; intros s; cbn.
  - by destruct (exec handle (f a) s) as [[s2 tr2] r].
  - reflexivity.
  - destruct (handle X o s) as [s1 r]. rewrite IH.
    destruct (exec handle (k r) s1) as [[s2 tr] [a|e]]; [|reflexivity].
    by destruct (exec handle (f a) s2) as [[s3 tr3] r3].
Qed.

Lemma exec_try_except {A} (p : prog A) (h : exn -> prog A) (s : St) :
  exec handle (try_except p h) s =
    match exec handle p s with
    | (s1, tr1, Ok a) => (s1, tr1, Ok a)
    | (s1, tr1, Raise e) =>
        let '(s2, tr2, r) := exec handle (h e) s1 in (s2, tr1 ++ tr2, r)
    end.
Proof.
  revert s. induction p as [a|e|X o k IH]; intros s; cbn.
  - reflexivity.
  - by destruct (exec handle (h e) s) as [[s2 tr2] r].
  - destruct (handle X o s) as [s1 r]. rewrite IH.
    destruct (exec handle (k r) s1) as [[s2 tr] [a|e]]; [reflexivity|].
    by destruct (exec handle (h e) s2) as [[s3 tr3] r3].
Qed.

End RunFacts.

(** ** The driver *)

Section PoolFacts.

Context {St : Type}.
Variable handle : forall X, op X -> St -> St * result X.

Lemma pending_insert_some (pool : list (option job)) (i : nat) (j j' : job) :
  pool !! i = Some (Some j) -> job_tag j' = job_tag j ->
  map job_tag (pending (<[i := Some j']> pool)) = map job_tag (pending pool).
Proof.
  intros Hi Htag. pose proof (lookup_lt_Some _ _ _ Hi) as Hlt.
  rewrite insert_take_drop by exact Hlt.
  rewrite <- (take_drop_middle pool i (Some j) Hi) at 3.
  unfold pending. rewrite !omap_app, !map_app. cbn. by rewrite Htag.
Qed.

Lemma pending_insert_none (pool : list (option job)) (i : nat) (j : job) :
  pool !! i = Some (Some j) ->
  map job_tag (pending pool) ≡ₚ job_tag j :: map job_tag (pending (<[i := None]> pool)).
Proof.
  intros Hi. pose proof (lookup_lt_Some _ _ _ Hi) as Hlt.
  rewrite insert_take_drop by exact Hlt.
  rewrite <- (take_drop_middle pool i (Some j) Hi) at 1.
  unfold pending. rewrite !omap_app, !map_app. cbn.
  by rewrite Permutation_middle.
Qed.

Lemma drain_tags (pool : list (option job)) (s : St) :
  map rep_tag (drain handle pool s).2 = map job_tag (pending pool).
Proof.
  revert s. induction pool as [|[j|] rest IH]; intros s; cbn; auto.
  destruct (exec handle (job_body j) s) as [[s1 tr1] r].
  specialize (IH s1). unfold pending in IH.
  destruct (drain handle rest s1) as [[s2 tr2] reps]. cbn in *.
  by rewrite IH.
Qed.


Lemma step_job_tag (j : job) (s : St) :
  match (step_job handle j s).2 with
  | inl j' => job_tag j' = job_tag j
  | inr rep => rep_tag rep = job_tag j
  end.
Proof.
  unfold step_job. destruct (job_body j) as [a|e|X o k]; try reflexivity.
  by destruct (handle X o s).
Qed.


Lemma run_pool_tags (sched : list nat) (pool : list (option job)) (s : St) :
  map rep_tag (run_pool handle sched pool s).2 ≡ₚ map job_tag (pending pool).
Proof.
  revert pool s. induction sched as [|i sched IH]; intros pool s; cbn.
  { by rewrite drain_tags. }
  destruct (pool !! i) as [[j|]|] eqn:Hi; auto.
  pose proof (step_job_tag j s) as Htag.
  destruct (step_job handle j s) as [[s1 tr1] [j'|rep]]; cbn in Htag.
  - specialize (IH (<[i := Some j']> pool) s1).
    destruct (run_pool handle sched _ s1) as [[s2 tr2] reps]. cbn in *.
    by rewrite IH, (pending_insert_some pool i j j').
  - specialize (IH (<[i := None]> pool) s1).
    destruct (run_pool handle sched _ s1) as [[s2 tr2] reps]. cbn in *.
    by rewrite IH, Htag, <- pending_insert_none.
Qed.


Lemma runs_exec {A} (p : prog A) (s : St) :
  runs p (exec handle p s).1.2 (exec handle p s).2.
Proof.
  revert s. induction p as [a|e|X o k IH]; intros s; cbn; try constructor.
  destruct (handle X o s) as [s1 r]. specialize (IH r s1).
  destruct (exec handle (k r) s1) as [[s2 tr] res]. cbn in *. by constructor.
Qed.

Lemma answers_exec {A} (p : prog A) (s : St) :
  answers handle s (exec handle p s).1.2 (exec handle p s).1.1.
Proof.
  revert s. induction p as [a|e|X o k IH]; intros s; cbn; try reflexivity.
  destruct (handle X o s) as [s1 r] eqn:Hh. specialize (IH r s1).
  destruct (exec handle (k r) s1) as [[s2 tr] res]. cbn in *.
  rewrite Hh. by split.
Qed.

Lemma answers_app (s s1 s2 : St) (tr1 tr2 : list event) :
  answers handle s tr1 s1 -> answers handle s1 tr2 s2 ->
  answers handle s (tr1 ++ tr2) s2.
Proof.
  revert s. induction tr1 as [|[X o r] tr1 IH]; intros s; cbn.
  - by intros ->.
  - intros [Hr H1] H2. split; [exact Hr|]. by apply IH.
Qed.

Lemma interleaving_skip (trs : list (list event)) (tr : list event) :
  interleaving trs tr -> interleaving ([] :: trs) tr.
Proof.
  induction 1 as [trs Hall|trs i ev t tr Hi _ IH].
  - constructor. by constructor.
  - by apply (interleaving_cons _ (S i) ev t).
Qed.

Lemma interleaving_first (t : list event) (trs : list (list event)) (tr : list event) :
  interleaving trs tr -> interleaving (t :: trs) (t ++ tr).
Proof.
  intros H. induction t as [|ev t IH]; cbn.
  - by apply interleaving_skip.
  - by apply (interleaving_cons _ 0%nat ev t).
Qed.

(** Traces that follow one another are interleaved. *)
Lemma interleaving_concat (trs : list (list event)) : interleaving trs (concat trs).
Proof.
  induction trs as [|t trs IH]; cbn.
  - constructor. constructor.
  - by apply interleaving_first.
Qed.

Lemma omap_insert_some {B} (l : list (option B)) (i : nat) (x : B) :
  l !! i = Some None -> omap id (<[i := Some x]> l) ≡ₚ x :: omap id l.
Proof.
  intros Hi. pose proof (lookup_lt_Some _ _ _ Hi) as Hlt.
  rewrite insert_take_drop by exact Hlt.
  rewrite <- (take_drop_middle l i None Hi) at 3.
  rewrite !omap_app. cbn. by rewrite Permutation_middle.
Qed.

Lemma drain_runs (pool : list (option job)) (s : St) :
  exists outs,
    Forall2 slot_runs pool outs /\
    (drain handle pool s).1.2 = concat (map fst outs) /\
    answers handle s (drain handle pool s).1.2 (drain handle pool s).1.1 /\
    (drain handle pool s).2 = pool_reports pool outs.
Proof.
  revert s. induction pool as [|[j|] rest IH]; intros s; cbn [drain].
  - exists []. repeat split. constructor.
  - pose proof (runs_exec (job_body j) s) as Hruns.
    pose proof (answers_exec (job_body j) s) as Hans.
    destruct (exec handle (job_body j) s) as [[s1 tr1] r].
    destruct (IH s1) as (outs & Hall & Htr & Hans' & Hreps).
    destruct (drain handle rest s1) as [[s2 tr2] reps]. cbn [fst snd] in *.
    exists ((tr1, r) :: outs). repeat split.
    + by constructor.
    + cbn. by rewrite Htr.
    + by apply (answers_app s s1 s2).
    + unfold pool_reports in *. cbn. by rewrite Hreps.
  - destruct (IH s) as (outs & Hall & Htr & Hans' & Hreps).
    exists (([], Ok "") :: outs). repeat split; auto.
    by constructor.
Qed.

(** The thread pool under any schedule: every submitted call runs to its
    end exactly once, the requests of the pool are those of these runs,
    interleaved, and every call is reported with its outcome. *)
Lemma run_pool_runs (sched : list nat) (pool : list (option job)) (s : St) :
  exists outs,
    Forall2 slot_runs pool outs /\
    interleaving (map fst outs) (run_pool handle sched pool s).1.2 /\
    answers handle s (run_pool handle sched pool s).1.2 (run_pool handle sched pool s).1.1 /\
    (run_pool handle sched pool s).2 ≡ₚ pool_reports pool outs.
Proof.
  revert pool s. induction sched as [|i sched IH]; intros pool s; cbn [run_pool].
  { destruct (drain_runs pool s) as (outs & Hall & Htr & Hans & Hreps).
    exists outs. rewrite Htr, Hreps. repeat split; auto.
    - apply interleaving_concat.
    - by rewrite <- Htr. }
  destruct (pool !! i) as [[j|]|] eqn:Hi; auto.
  unfold step_job. destruct (job_body j) as [a|e|X o k] eqn:Hbody.
  - (* the call has returned *)
    destruct (IH (<[i := None]> pool) s) as (outs & Hall & Hint & Hans & Hreps).
    destruct (run_pool handle sched _ s) as [[s2 tr2] reps]. cbn [fst snd app] in *.
    pose proof (lookup_lt_Some _ _ _ Hi) as Hlt.
    destruct (Forall2_lookup_l _ _ _ i None Hall) as (out & Hout & Hempty);
      [by apply list_lookup_insert_eq|]. cbn in Hempty.
    assert (Hpool : pool = <[i := Some j]> (<[i := None]> pool))
      by (by rewrite list_insert_insert_eq, list_insert_id).
    exists (<[i := ([], Ok a)]> outs). repeat split; auto.
    + rewrite Hpool. apply Forall2_insert; [exact Hall|].
      cbn. rewrite Hbody. constructor.
    + rewrite list_fmap_insert. cbn [fst].
      rewrite list_insert_id; [exact Hint|].
      by rewrite list_lookup_fmap, Hout, <- Hempty.
    + rewrite Hreps. unfold pool_reports.
      replace (zip_with slot_report pool (<[i := ([], Ok a)]> outs))
        with (<[i := Some (Report (job_ith j) (job_path j) (Ok a))]>
                (zip_with slot_report (<[i := None]> pool) outs))
        by (symmetry; rewrite Hpool at 1; by rewrite <- insert_zip_with).
      symmetry. apply omap_insert_some.
      rewrite lookup_zip_with, list_lookup_insert_eq, Hout by exact Hlt. reflexivity.
  - (* the call has raised *)
    destruct (IH (<[i := None]> pool) s) as (outs & Hall & Hint & Hans & Hreps).
    destruct (run_pool handle sched _ s) as [[s2 tr2] reps]. cbn [fst snd app] in *.
    pose proof (lookup_lt_Some _ _ _ Hi) as Hlt.
    destruct (Forall2_lookup_l _ _ _ i None Hall) as (out & Hout & Hempty);
      [by apply list_lookup_insert_eq|]. cbn in Hempty.
    assert (Hpool : pool = <[i := Some j]> (<[i := None]> pool))
      by (by rewrite list_insert_insert_eq, list_insert_id).
    exists (<[i := ([], Raise e)]> outs). repeat split; auto.
    + rewrite Hpool. apply Forall2_insert; [exact Hall|].
      cbn. rewrite Hbody. constructor.
    + rewrite list_fmap_insert. cbn [fst].
      rewrite list_insert_id; [exact Hint|].
      by rewrite list_lookup_fmap, Hout, <- Hempty.
    + rewrite Hreps. unfold pool_reports.
      replace (zip_with slot_report pool (<[i := ([], Raise e)]> outs))
        with (<[i := Some (Report (job_ith j) (job_path j) (Raise e))]>
                (zip_with slot_report (<[i := None]> pool) outs))
        by (symmetry; rewrite Hpool at 1; by rewrite <- insert_zip_with).
      symmetry. apply omap_insert_some.
      rewrite lookup_zip_with, list_lookup_insert_eq, Hout by exact Hlt. reflexivity.
  - (* the call sends its next request *)
    destruct (handle X o s) as [s1 r] eqn:Hh.
    set (j' := Job (job_ith j) (job_path j) (k r)).
    destruct (IH (<[i := Some j']> pool) s1) as (outs & Hall & Hint & Hans & Hreps).
    destruct (run_pool handle sched _ s1) as [[s2 tr2] reps]. cbn [fst snd app] in *.
    pose proof (lookup_lt_Some _ _ _ Hi) as Hlt.
    destruct (Forall2_lookup_l _ _ _ i (Some j') Hall) as (out & Hout & Hrun);
      [by apply list_lookup_insert_eq|]. cbn in Hrun.
    assert (Hpool : pool = <[i := Some j]> (<[i := Some j']> pool))
      by (by rewrite list_insert_insert_eq, list_insert_id).
    exists (<[i := (Ev o r :: out.1, out.2)]> outs). split; [|split; [|split]].
    + rewrite Hpool. apply Forall2_insert; [exact Hall|].
      cbn. rewrite Hbody. by constructor.
    + rewrite list_fmap_insert. cbn [fst].
      apply (interleaving_cons _ i (Ev o r) out.1).
      * apply list_lookup_insert_eq. rewrite length_map.
        apply lookup_lt_Some in Hout. exact Hout.
      * rewrite list_insert_insert_eq, list_insert_id; [exact Hint|].
        by rewrite list_lookup_fmap, Hout.
    + cbn. rewrite Hh. by split.
    + rewrite Hreps. unfold pool_reports.
      replace (zip_with slot_report pool (<[i := (Ev o r :: out.1, out.2)]> outs))
        with (<[i := Some (Report (job_ith j) (job_path j) out.2)]>
                (zip_with slot_report (<[i := Some j']> pool) outs))
        by (symmetry; rewrite Hpool at 1; by rewrite <- insert_zip_with).
      rewrite (list_insert_id (zip_with slot_report (<[i := Some j']> pool) outs));
        [reflexivity|].
      rewrite lookup_zip_with, list_lookup_insert_eq, Hout by exact Hlt. reflexivity.
Qed.

End PoolFacts.

Lemma enumerate_from_fst {A} (i : Z) (l : list A) :
  map fst (enumerate_from i l) = map (fun k => i + Z.of_nat k) (seq 0 (length l)).
Proof.
  revert i. induction l as [|x t IH]; intros i; cbn [enumerate_from length seq map]; [reflexivity|].
  rewrite IH, <- seq_shift, map_map. f_equal; [cbn; lia|].
  apply map_ext. intros k. lia.
Qed.

Lemma enumerate_indices_NoDup {A} (l : list A) : NoDup (map fst (enumerate l)).
Proof.
  unfold enumerate. rewrite enumerate_from_fst.
  apply NoDup_fmap_2; [|apply NoDup_seq].
  intros a b Hab. lia.
Qed.

Section DriverFacts.

Context {St : Type}.
Variable handle : forall X, op X -> St -> St * result X.
Variable shuffle : list frame -> list frame.
Variable args : Args.
Variable frame_db : Storage.

Lemma run_sequential_tags (jobs : list (Z * Annotation)) (s : St) :
  map rep_tag (run_sequential handle shuffle args frame_db jobs s).2
  = map video_tag jobs.
Proof.
  revert s. induction jobs as [|[ith v] rest IH]; intros s;
    cbn [run_sequential map]; [reflexivity|].
  destruct (exec handle (process shuffle args ith v frame_db) s) as [[s1 tr1] r].
  specialize (IH s1).
  destruct (run_sequential handle shuffle args frame_db rest s1) as [[s2 tr2] reps].
  cbn in *. by f_equal.
Qed.


Lemma submit_pending (jobs : list (Z * Annotation)) :
  map job_tag (pending (map (submit shuffle args frame_db) jobs)) = map video_tag jobs.
Proof.
  induction jobs as [|[ith v] rest IH]; cbn; [reflexivity|].
  unfold pending in IH. by rewrite IH.
Qed.


Lemma run_videos_tags (annotations : list Annotation) (sched : list nat) (s : St) :
  map rep_tag (run_videos handle shuffle args frame_db annotations sched s).2
  ≡ₚ map video_tag (enumerate annotations).
Proof.
  unfold run_videos. destruct (0 <? threads args).
  - by rewrite run_pool_tags, submit_pending.
  - by rewrite run_sequential_tags.
Qed.


Lemma run_sequential_runs (jobs : list (Z * Annotation)) (s : St) :
  let run := run_sequential handle shuffle args frame_db jobs s in
  exists outs,
    video_runs shuffle args frame_db jobs outs /\
    run.1.2 = concat (map fst outs) /\
    answers handle s run.1.2 run.1.1 /\
    run.2 = reports_of jobs outs.
Proof.
  revert s. induction jobs as [|[ith v] rest IH]; intros s; cbn [run_sequential].
  { exists []. repeat split. constructor. }
  pose proof (runs_exec handle (process shuffle args ith v frame_db) s) as Hruns.
  pose proof (answers_exec handle (process shuffle args ith v frame_db) s) as Hans.
  destruct (exec handle (process shuffle args ith v frame_db) s) as [[s1 tr1] r].
  destruct (IH s1) as (outs & Hall & Htr & Hans' & Hreps).
  destruct (run_sequential handle shuffle args frame_db rest s1) as [[s2 tr2] reps].
  cbn [fst snd] in *.
  exists ((tr1, r) :: outs). repeat split.
  - by constructor.
  - cbn. by rewrite Htr.
  - by apply (answers_app handle s s1 s2).
  - unfold reports_of in *. cbn. by rewrite Hreps.
Qed.

Lemma submit_runs (jobs : list (Z * Annotation))
    (outs : list (list event * result string)) :
  Forall2 slot_runs (map (submit shuffle args frame_db) jobs) outs ->
  video_runs shuffle args frame_db jobs outs /\
  pool_reports (map (submit shuffle args frame_db) jobs) outs = reports_of jobs outs.
Proof.
  revert outs. induction jobs as [|[ith v] rest IH]; intros outs Hall; cbn in Hall.
  { apply Forall2_nil_inv_l in Hall as ->. split; [constructor|reflexivity]. }
  apply Forall2_cons_inv_l in Hall as (out & outs' & Hrun & Hall & ->).
  destruct (IH outs' Hall) as [Hruns Hreps]. split.
  - by constructor.
  - unfold pool_reports, reports_of in *. cbn. by rewrite Hreps.
Qed.

(** Either loop of the main block: every video of the list has one
    complete run of [process], the requests of the loop are those of
    these runs and nothing else, answered by the outside world in the
    order they were sent, and the reports are those of these runs. *)
Lemma run_videos_runs (annotations : list Annotation) (sched : list nat) (s : St) :
  let run := run_videos handle shuffle args frame_db annotations sched s in
  exists outs,
    video_runs shuffle args frame_db (enumerate annotations) outs /\
    interleaving (map fst outs) run.1.2 /\
    answers handle s run.1.2 run.1.1 /\
    run.2 ≡ₚ reports_of (enumerate annotations) outs /\
    (threads args <= 0 ->
     run.1.2 = concat (map fst outs) /\
     run.2 = reports_of (enumerate annotations) outs).
Proof.
  unfold run_videos. destruct (Z.ltb_spec 0 (threads args)) as [Hpool|Hseq]; cbn zeta.
  - destruct (run_pool_runs handle sched
                (map (submit shuffle args frame_db) (enumerate annotations)) s)
      as (outs & Hall & Hint & Hans & Hreps).
    apply submit_runs in Hall as [Hruns Heq]. rewrite Heq in Hreps.
    exists outs. repeat split; auto; lia.
  - destruct (run_sequential_runs (enumerate annotations) s)
      as (outs & Hruns & Htr & Hans & Hreps).
    exists outs. split; [exact Hruns|]. split; [|split; [exact Hans|]].
    + rewrite Htr. apply interleaving_concat.
    + split; [by rewrite Hreps|]. by intros _.
Qed.

(** C7: with or without worker threads, under every schedule and
    whatever the outside world answers, every video of the annotation
    list is attempted exactly once: there is one complete run of
    [process] per video, the requests of the loop are the requests of
    these runs, interleaved, and no others, each answered by the outside
    world; and there is exactly one report per video, under the index and
    the path of the video, holding the outcome of its run, the status or
    the exception it raised, whatever happened to the other videos.
    Without threads the runs follow one another and the reports come in
    annotation order. *)
Theorem every_video_reported_once (annotations : list Annotation)
    (sched : list nat) (s : St) :
  let run := run_videos handle shuffle args frame_db annotations sched s in
  exists outs : list (list event * result string),
    video_runs shuffle args frame_db (enumerate annotations) outs /\
    interleaving (map fst outs) run.1.2 /\
    answers handle s run.1.2 run.1.1 /\
    run.2 ≡ₚ reports_of (enumerate annotations) outs /\
    map rep_tag run.2 ≡ₚ map video_tag (enumerate annotations) /\
    NoDup (map rep_ith run.2) /\
    (threads args <= 0 ->
     run.1.2 = concat (map fst outs) /\
     run.2 = reports_of (enumerate annotations) outs).
Proof.
  intros run. subst run.
  destruct (run_videos_runs annotations sched s) as (outs & Hruns & Hint & Hans & Hreps & Hseq).
  pose proof (run_videos_tags annotations sched s) as Htags.
  exists outs. repeat split; auto; try (by apply Hseq).
  assert (Hfst : map rep_ith (run_videos handle shuffle args frame_db annotations sched s).2
                 ≡ₚ map fst (enumerate annotations)).
  { apply (fmap_Permutation fst) in Htags.
    rewrite <- !list_fmap_compose in Htags. exact Htags. }
  rewrite Hfst. apply enumerate_indices_NoDup.
Qed.

End DriverFacts.

(** ** An invalid sampling parameter *)


Section InvalidSampling.

Variable shuffle : list frame -> list frame.
Variable args : Args.
Variable n : Z.
Hypothesis Hmode : sample_mode args <> 0.
Hypothesis Hsample : Py.int (sample args) = Ok n.
Hypothesis Hneg : n <= 0.




End InvalidSampling.

(** The runs of a program that keeps [P] and [Q]. *)
Lemma runs_always {A} (P : event -> Prop) (Q : result A -> Prop) (p : prog A)
    (tr : list event) (r : result A) :
  always P Q p -> runs p tr r -> Forall P tr /\ Q r.
Proof.
  intros Hp Hruns. induction Hruns as [a|e|X o k r tr res _ IH]; cbn in Hp.
  - by split.
  - by split.
  - destruct (Hp r) as [Hev Hk]. destruct (IH Hk). split; [by constructor|assumption].
Qed.


Section InvalidRuns.

Variable shuffle : list frame -> list frame.
Variable args : Args.
Variable n : Z.
Hypothesis Hmode : sample_mode args <> 0.
Hypothesis Hsample : Py.int (sample args) = Ok n.
Hypothesis Hneg : n <= 0.


End InvalidRuns.

Section MainFacts.

Context {St : Type}.
Variable handle : forall X, op X -> St -> St * result X.
Variable shuffle : list frame -> list frame.
Variable args : Args.



End MainFacts.




(** ** The keys written for one video *)

Section WriteFacts.

Context {St : Type}.
Variable handle : forall X, op X -> St -> St * result X.
Variable shuffle : list frame -> list frame.
Variable args : Args.

Lemma exec_call {X} (o : op X) (s : St) :
  exec handle (call o) s
  = ((handle X o s).1, [Ev o (handle X o s).2], (handle X o s).2).
Proof. cbn. by destruct (handle X o s) as [s1 [x|e]]. Qed.

Lemma exec_lift {A} (r : result A) (s : St) : exec handle (lift r) s = (s, [], r).
Proof. by destruct r. Qed.

Lemma exec_put (frame_db : Storage) (k : string) (v : db_value) (s : St) :
  put_keys (exec handle (put frame_db k v) s).1.2 = [k].
Proof. destruct frame_db; unfold put; by rewrite exec_call. Qed.

Lemma exec_video_to_frames (video_file tmp : Path) (s s' : St)
    (tr : list event) (frames : list frame) :
  exec handle (video_to_frames args video_file tmp) s = (s', tr, Ok frames) ->
  put_keys tr = [] /\
  exists listing, Ev (Iterdir tmp) (Ok listing) ∈ tr /\ lists_frames listing frames.
Proof.
  unfold video_to_frames. rewrite exec_bind, exec_call.
  destruct (handle Z _ s) as [s1 [code|e]]; cbn [fst snd]; [|discriminate].
  rewrite exec_bind, exec_call.
  destruct (handle (list Path) _ s1) as [s2 [listing|e]]; cbn [fst snd]; [|discriminate].
  rewrite exec_bind, exec_lift.
  destruct (rmapM frame_of_file listing) as [parsed|e] eqn:Hparsed; [|discriminate].
  cbn. intros [= <- <- <-]. split; [reflexivity|].
  exists listing. split; [repeat constructor|]. by exists parsed.
Qed.

Lemma exec_write_loop (video_ith : Z) (tmp : Path) (frame_db : Storage)
    (files : list frame) (start : Z) (s s' : St) (tr : list event) :
  exec handle
    (for_each (enumerate_from start files) (fun '(frame_ith, (frame_id, frame_path)) =>
       let key := frame_key video_ith frame_ith in
       pbind (call (ReadFile (Pathlib.join tmp frame_path))) (fun b =>
         put frame_db key (match db_type args with LMDB => VBytes b | HDF5 => VVoid b end))))
    s = (s', tr, Ok tt) ->
  put_keys tr
  = map (fun k => frame_key video_ith (start + Z.of_nat k)) (seq 0 (length files)).
Proof.
  revert start s s' tr.
  induction files as [|[frame_id frame_path] rest IH]; intros start s s' tr.
  { cbn. by intros [= <- <-]. }
  cbn [enumerate_from for_each length seq map].
  rewrite exec_bind, exec_bind, exec_call.
  destruct (handle bytes _ s) as [s1 [b|e]]; cbn [fst snd]; [|discriminate].
  match goal with |- context [exec handle (put ?d ?k ?v) s1] =>
    pose proof (exec_put d k v s1) as Hput;
    destruct (exec handle (put d k v) s1) as [[s2 tr2] [[]|e]]; [|discriminate]
  end.
  destruct (exec handle (for_each _ _) s2) as [[s3 tr3] r3] eqn:Hrest.
  intros [= <- <- ->].
  apply IH in Hrest. cbn in Hput.
  unfold put_keys in *. cbn [omap put_key list_omap]. rewrite omap_app, Hput, Hrest.
  cbn. rewrite Z.add_0_r. f_equal.
  rewrite <- seq_shift, map_map. apply map_ext. intros k. f_equal. lia.
Qed.

End WriteFacts.

(** C8: when [process] completes the writing of a video, the keys it has
    written are, in this order, ["{video_ith:08d}/{p:08d}"] for
    p = 0, 1, ..., m-1, where m is the number of frames that
    [sample_frames] kept of the frames listed for the video. *)
Theorem written_keys_are_consecutive {St : Type}
    (handle : forall X, op X -> St -> St * result X)
    (shuffle : list frame -> list frame) (args : Args)
    (video_ith : Z) (video_info : Annotation) (frame_db : Storage)
    (s s' : St) (tr : list event) (status : string) :
  exec handle (process shuffle args video_ith video_info frame_db) s = (s', tr, Ok status) ->
  exists listing frames files,
    Ev (Iterdir (video_tmp_dir args video_info)) (Ok listing) ∈ tr /\
    lists_frames listing frames /\
    sample_frames shuffle args frames = Ok files /\
    put_keys tr
    = map (fun p => Py.fmt08d video_ith +:+ "/" +:+ Py.fmt08d p)
          (Py.range (Z.of_nat (length files))).
Proof.
  unfold process. rewrite exec_bind, exec_call.
  destruct (handle unit _ s) as [s1 [[]|e]]; cbn [fst snd]; [|discriminate].
  rewrite exec_bind.
  destruct (exec handle (video_to_frames _ _ _) s1) as [[s2 tr2] [frames|e]] eqn:Hv2f;
    [|discriminate].
  apply exec_video_to_frames in Hv2f as (Hnoput & listing & Hin & Hlist).
  destruct frames as [|f0 frames]; [discriminate|].
  rewrite exec_bind, exec_lift.
  destruct (sample_frames shuffle args (f0 :: frames)) as [files|e] eqn:Hfiles; [|discriminate].
  destruct files as [|g0 files]; [discriminate|].
  rewrite exec_bind, exec_try_except.
  destruct (exec handle (write_frames _ _ _ _ _) s2) as [[s3 tr3] [[]|e]] eqn:Hwrite;
    [|discriminate].
  unfold write_frames, enumerate in Hwrite. apply exec_write_loop in Hwrite.
  rewrite exec_bind.
  destruct (exec handle (if not_remove args then _ else _) s3) as [[s4 tr4] r4] eqn:Hrm.
  assert (Hrm_keys : put_keys tr4 = []).
  { destruct (not_remove args); cbn in Hrm.
    - by injection Hrm as <- <- <-.
    - destruct (handle unit _ s3) as [s5 r5]. by injection Hrm as <- <- <-. }
  destruct r4 as [[]|e]; [|discriminate].
  cbn. intros [= <- <- <-].
  exists listing, (f0 :: frames), (g0 :: files). repeat split; auto.
  - apply elem_of_cons. right. apply elem_of_app. by left.
  - unfold put_keys in *. cbn [omap list_omap put_key].
    rewrite !omap_app, Hnoput, Hwrite, Hrm_keys.
    cbn [app]. rewrite app_nil_r. unfold Py.range. rewrite Nat2Z.id, map_map.
    reflexivity.
Qed.

Lemma written_keys_are_consecutive_witness :
  exists listing frames files,
    Ev (Iterdir (video_tmp_dir (Sim.args0 "/tmp" 3 "2" 0) (Sim.video "/data/a/clip.mp4")))
       (Ok listing)
    ∈ (exec Sim.handle
         (process (fun l => l) (Sim.args0 "/tmp" 3 "2" 0) 7 (Sim.video "/data/a/clip.mp4")
            HDF5Storage) Sim.world0).1.2 /\
    lists_frames listing frames /\
    sample_frames (fun l => l) (Sim.args0 "/tmp" 3 "2" 0) frames = Ok files /\
    put_keys (exec Sim.handle
                (process (fun l => l) (Sim.args0 "/tmp" 3 "2" 0) 7
                   (Sim.video "/data/a/clip.mp4") HDF5Storage) Sim.world0).1.2
    = map (fun p => Py.fmt08d 7 +:+ "/" +:+ Py.fmt08d p)
          (Py.range (Z.of_nat (length files))).
Proof.
  eapply (written_keys_are_consecutive Sim.handle (fun l => l) (Sim.args0 "/tmp" 3 "2" 0) 7
            (Sim.video "/data/a/clip.mp4") HDF5Storage Sim.world0).
  vm_compute. reflexivity.
Defined.

(** ** Working directories *)

Lemma split_on_pieces (sep : ascii) (s w : string) :
  w ∈ Py.split_on sep s -> contains sep w = false.
Proof.
  revert w. induction s as [|c s IH]; intros w; cbn.
  - intros Hw. apply list_elem_of_singleton in Hw as ->. reflexivity.
  - destruct (Ascii.eqb c sep) eqn:Hc.
    + intros Hw. apply elem_of_cons in Hw as [->|Hw]; [reflexivity|by apply IH].
    + destruct (Py.split_on sep s) as [|w0 ws].
      * intros Hw. apply list_elem_of_singleton in Hw as ->. cbn. by rewrite Hc.
      * intros Hw. apply elem_of_cons in Hw as [->|Hw].
        -- cbn. rewrite Hc. apply IH. by left.
        -- apply IH. by right.
Qed.

Lemma split_on_whole (sep : ascii) (s : string) :
  contains sep s = false -> Py.split_on sep s = [s].
Proof.
  induction s as [|c s IH]; cbn; [reflexivity|].
  destruct (Ascii.eqb c sep); [discriminate|]. cbn.
  intros Hs. by rewrite (IH Hs).
Qed.

(** A component of a path, read as a path of its own. *)
Lemma of_str_component (s c : string) :
  c ∈ comps (Pathlib.of_str s) ->
  Pathlib.of_str c = {| is_abs := false; comps := [c] |}.
Proof.
  unfold Pathlib.of_str. cbn [comps].
  rewrite list_elem_of_In, filter_In, <- list_elem_of_In. intros [Hc Hkeep].
  apply split_on_pieces in Hc.
  rewrite (split_on_whole _ _ Hc). cbn [List.filter]. rewrite Hkeep.
  f_equal. destruct c as [|a c]; [reflexivity|].
  cbn in *. by destruct (Ascii.eqb a "/").
Qed.

Lemma name_cases (p : Path) :
  (comps p = [] /\ Pathlib.name p = "") \/ Pathlib.name p ∈ comps p.
Proof.
  unfold Pathlib.name. destruct (comps p) as [|c cs] eqn:Hp; [by left|right].
  rewrite list_elem_of_In.
  destruct (@exists_last _ (c :: cs)) as (l' & a & ->); [discriminate|].
  rewrite last_last. apply in_or_app. right. by left.
Qed.

(** The directory of a video is the temporary directory extended by the
    file name of the video, when it has one. *)
Lemma video_tmp_dir_comps (args : Args) (v : Annotation) :
  let base := Pathlib.of_str (tmp_dir args) in
  let n := Pathlib.name (Pathlib.of_str (path v)) in
  video_tmp_dir args v
  = {| is_abs := is_abs base;
       comps := comps base ++ (if String.eqb n "" then [] else [n]) |}.
Proof.
  intros base n. unfold video_tmp_dir. fold base. fold n.
  destruct (name_cases (Pathlib.of_str (path v))) as [[_ Hn]|Hn]; fold n in Hn.
  - rewrite Hn. cbn. by rewrite app_nil_r; destruct base.
  - pose proof Hn as Hin.
    apply of_str_component in Hn. rewrite Hn. unfold Pathlib.join. cbn [is_abs comps].
    destruct (String.eqb_spec n "") as [Hempty|_]; [|reflexivity].
    exfalso. unfold Pathlib.of_str in Hin. cbn [comps] in Hin.
    rewrite list_elem_of_In, filter_In in Hin. destruct Hin as [_ Hkeep].
    rewrite Hempty in Hkeep. discriminate.
Qed.

(** C9, as the code has it: the working directory of a video is named
    after the final component of its path, so two videos whose file names
    differ get distinct working directories. *)
Theorem distinct_names_distinct_tmp_dirs (args : Args) (v1 v2 : Annotation) :
  Pathlib.name (Pathlib.of_str (path v1)) <> Pathlib.name (Pathlib.of_str (path v2)) ->
  video_tmp_dir args v1 <> video_tmp_dir args v2.
Proof.
  intros Hne. rewrite !video_tmp_dir_comps. cbn zeta.
  intros [= Heq]. apply app_inv_head in Heq.
  destruct (String.eqb_spec (Pathlib.name (Pathlib.of_str (path v1))) "") as [H1|H1];
  destruct (String.eqb_spec (Pathlib.name (Pathlib.of_str (path v2))) "") as [H2|H2];
    try discriminate; congruence.
Qed.

Lemma distinct_names_distinct_tmp_dirs_witness :
  video_tmp_dir (Sim.args0 "/tmp" 0 "" 2) (Sim.video "/data/a/clip.mp4")
  <> video_tmp_dir (Sim.args0 "/tmp" 0 "" 2) (Sim.video "/data/c/other.mp4").
Proof.
  apply (distinct_names_distinct_tmp_dirs (Sim.args0 "/tmp" 0 "" 2)
           (Sim.video "/data/a/clip.mp4") (Sim.video "/data/c/other.mp4")).
  vm_compute. discriminate.
Defined.

(** C9, as stated, fails: two videos with different paths and the same
    file name are given the same working directory. *)
Lemma same_name_same_tmp_dir :
  path (Sim.video "/data/a/clip.mp4") <> path (Sim.video "/data/b/clip.mp4") /\
  video_tmp_dir (Sim.args0 "/tmp" 0 "" 2) (Sim.video "/data/a/clip.mp4")
  = video_tmp_dir (Sim.args0 "/tmp" 0 "" 2) (Sim.video "/data/b/clip.mp4").
Proof. split; [discriminate|reflexivity]. Qed.

(** ** Failures of the write loop *)

(** Whatever exception ends the write loop, [process] raises the
    RuntimeError "Video exists in database". *)
Lemma write_failure_message {St : Type}
    (handle : forall X, op X -> St -> St * result X)
    (args : Args) (video_ith : Z) (tmp : Path) (frame_db : Storage)
    (files : list frame) (s s' : St) (tr : list event) (e : exn) :
  exec handle
    (try_except (write_frames args video_ith tmp frame_db files)
       (fun _ => Throw (Exn RuntimeError "Video exists in database"))) s
  = (s', tr, Raise e) ->
  e = Exn RuntimeError "Video exists in database".
Proof.
  rewrite exec_try_except.
  destruct (exec handle (write_frames _ _ _ _ _) s) as [[s1 tr1] [[]|e1]];
    [discriminate|].
  cbn. by intros [= _ _ <-].
Qed.

(** C6 on a fresh store: with the relative temporary directory "scratch"
    the frame files are looked up under a doubled path and every read
    fails; nothing is in the store and nothing is written to it, and still
    the video is reported as "Video exists in database". *)
Theorem read_failure_reported_as_duplicate :
  let run := main Sim.handle (fun l => l) (Sim.args0 "scratch" 0 "" 0) []
               (Sim.annotated [Sim.video "/data/a/clip.mp4"] Sim.world0) in
  run.2 = (["/data/a/clip.mp4 : Video exists in database"; "Done"], Ok tt) /\
  put_keys run.1.2 = [] /\
  Sim.store run.1.1 = ∅ /\
  Ev (ReadFile (Pathlib.of_str "scratch/clip.mp4/scratch/clip.mp4/00000001.jpg"))
     (Raise Sim.enoent) ∈ run.1.2.
Proof.
  repeat split.
  vm_compute. repeat first [apply list_elem_of_here | apply list_elem_of_further].
Qed.

(** C10: with [num_frames_per_clip == 1] the indexed lookup fails for
    every index: for a stored clip the single frame index is the float
    [len(frames_binary) / 2], and formatting it with ["{:08d}"] raises the
    ValueError, so no frame is retrieved. *)
Theorem single_frame_lookup_always_fails {image ndarray : Type}
    (imread : bytes -> result image) (np_array : list image -> ndarray)
    (shape : ndarray -> list Z) (randint : Z -> Z -> result Z)
    (crop : ndarray -> Z -> Z -> Z -> Z -> ndarray)
    (self : Loader.VideoDataset) (index : Z) :
  Loader.num_frames_per_clip self = 1 ->
  exists e,
    Loader.getitem imread np_array shape randint crop self index = Raise e /\
    (forall annotation frames_binary,
       Py.index (Loader.annotation self) index = Ok annotation ->
       Loader.database self !! Py.fmt08d index = Some frames_binary ->
       Loader.frame_index self (Z.of_nat (size frames_binary))
         = [Loader.PFloat (inject_Z (Z.of_nat (size frames_binary)) / 2)%Q] /\
       e = Exn ValueError "Unknown format code 'd' for object of type 'float'").
Proof.
  intros Hone. unfold Loader.getitem, Loader.h5_get, Loader.frame_index.
  rewrite Hone. cbn [Z.eqb Pos.eqb negb].
  destruct (Py.index (Loader.annotation self) index) as [a|e]; cbn [rbind].
  - destruct (Loader.database self !! Py.fmt08d index) as [clip|]; cbn.
    + eexists. split; [reflexivity|]. by intros ? ? [= <-] [= <-].
    + eexists. split; [reflexivity|]. discriminate.
  - exists e. split; [reflexivity|]. discriminate.
Qed.

Lemma single_frame_lookup_always_fails_witness :
  exists e,
    Loader.getitem (fun b => Ok b) (fun l => l) (fun _ => [4; 120; 160; 3])
      (fun a _ => Ok a) (fun l _ _ _ _ => l) (Loader.dataset0 1) 0 = Raise e /\
    (forall annotation frames_binary,
       Py.index (Loader.annotation (Loader.dataset0 1)) 0 = Ok annotation ->
       Loader.database (Loader.dataset0 1) !! Py.fmt08d 0 = Some frames_binary ->
       Loader.frame_index (Loader.dataset0 1) (Z.of_nat (size frames_binary))
         = [Loader.PFloat (inject_Z (Z.of_nat (size frames_binary)) / 2)%Q] /\
       e = Exn ValueError "Unknown format code 'd' for object of type 'float'").
Proof.
  apply (single_frame_lookup_always_fails (fun b => Ok b) (fun l => l)
           (fun _ => [4; 120; 160; 3]) (fun a _ => Ok a) (fun l _ _ _ _ => l)
           (Loader.dataset0 1) 0).
  reflexivity.
Defined.

(** On LMDB the simulated engine, like py-lmdb, refuses the [str] key
    that [process] hands to it: the first put of the video fails, and the
    video is reported as "Video exists in database" on an empty
    environment too. *)
Lemma lmdb_put_reported_as_duplicate :
  let run := main Sim.handle (fun l => l) Sim.args_lmdb []
               (Sim.annotated [Sim.video "/data/a/clip.mp4"] Sim.world0) in
  run.2 = (["/data/a/clip.mp4 : Video exists in database"; "Done"], Ok tt) /\
  put_keys run.1.2 = ["00000000/00000000"] /\
  Sim.store run.1.1 = ∅.
Proof. repeat split; vm_compute; reflexivity. Qed.

(** ** The frame list that [video_to_frames] delivers *)

Lemma listed_frames_sorted (listing : list Path) (frames : list frame) :
  lists_frames listing frames -> StronglySorted (key_le fst) frames.
Proof. intros (parsed & _ & ->). apply sort_by_sorted. Qed.

(** Sorted, with pairwise distinct frame numbers: strictly ascending. *)
Lemma sorted_distinct_strict (frames : list frame) :
  StronglySorted (key_le fst) frames -> NoDup (map fst frames) ->
  StronglySorted (key_lt fst) frames.
Proof.
  induction 1 as [|f frames Hsorted IH Hf]; intros Hnodup; [constructor|].
  cbn in Hnodup. apply NoDup_cons in Hnodup as [Hnotin Hnodup].
  constructor; [by apply IH|].
  rewrite Forall_forall in Hf |- *. intros g Hg.
  specialize (Hf g Hg). unfold key_le, key_lt in *.
  assert (fst f <> fst g); [|lia].
  intros Heq. apply Hnotin. rewrite Heq. by apply list_elem_of_fmap_2.
Qed.


(** ** Strings *)

Lemma append_cons (c : ascii) (s t : string) : String c s +:+ t = String c (s +:+ t).
Proof. reflexivity. Qed.

Lemma append_nil (t : string) : "" +:+ t = t.
Proof. reflexivity. Qed.

Lemma lower_app (s t : string) : Str.lower (s +:+ t) = Str.lower s +:+ Str.lower t.
Proof.
  induction s as [|c s IH]; [reflexivity|].
  rewrite append_cons. cbn [Str.lower]. by rewrite append_cons, IH.
Qed.

Lemma string_app_length (s t : string) :
  String.length (s +:+ t) = (String.length s + String.length t)%nat.
Proof.
  induction s as [|c s IH]; [reflexivity|].
  rewrite append_cons. cbn [String.length]. by rewrite IH.
Qed.

Lemma endswith_app (s suffix : string) : Str.endswith (s +:+ suffix) suffix = true.
Proof.
  induction s as [|c s IH].
  - rewrite append_nil. destruct suffix; cbn [Str.endswith];
      by rewrite String.eqb_refl.
  - rewrite append_cons. cbn [Str.endswith]. rewrite IH. apply orb_true_r.
Qed.

Lemma endswith_short (s suffix : string) :
  (String.length s < String.length suffix)%nat -> Str.endswith s suffix = false.
Proof.
  induction s as [|c s IH]; intros Hlen.
  - destruct suffix; [cbn in Hlen; lia|reflexivity].
  - cbn [Str.endswith]. rewrite IH by (cbn in Hlen; lia).
    destruct (String.eqb_spec (String c s) suffix) as [<-|]; [lia|reflexivity].
Qed.

(** A string that ends with one extension does not end with another of
    the same length. *)
Lemma endswith_other (s ext ext' : string) :
  String.length ext = String.length ext' ->
  Str.endswith (s +:+ ext) ext' = String.eqb ext ext'.
Proof.
  intros Hlen. induction s as [|c s IH].
  - rewrite append_nil. destruct ext as [|a ext].
    + destruct ext'; [reflexivity|discriminate].
    + cbn [Str.endswith]. rewrite endswith_short by (cbn in Hlen; lia).
      apply orb_false_r.
  - rewrite append_cons. cbn [Str.endswith]. rewrite IH.
    destruct (String.eqb_spec (String c (s +:+ ext)) ext') as [Heq|_]; [|reflexivity].
    apply (f_equal String.length) in Heq. cbn [String.length] in Heq.
    rewrite string_app_length in Heq. lia.
Qed.

Lemma endswith_split (s suffix : string) :
  Str.endswith s suffix = true -> exists prefix, s = prefix +:+ suffix.
Proof.
  induction s as [|c s IH]; cbn [Str.endswith].
  - rewrite orb_false_r. intros Heq%String.eqb_eq. by exists "".
  - intros [Heq%String.eqb_eq|Hrest]%orb_true_iff.
    + by exists "".
    + destruct (IH Hrest) as [prefix ->]. by exists (String c prefix).
Qed.

(** ** [modify_args] *)

Lemma check_db_consistent (annotation_file : string) (db_name : option string)
    (db_type name ty : string) :
  check_db annotation_file db_name db_type = Accepted (name, ty) ->
  (ty = "HDF5" /\ Str.endswith (Str.lower name) ".hdf5" = true) \/
  (ty = "LMDB" /\ Str.endswith (Str.lower name) ".hdf5" = false /\
   Str.endswith (Str.lower name) ".lmdb" = true).
Proof.
  unfold check_db.
  match goal with |- context [Str.endswith (Str.lower ?b) ".hdf5"] => set (base := b) end.
  destruct (Str.endswith (Str.lower base) ".hdf5") eqn:Hh.
  { intros [= <- <-]. by left. }
  destruct (Str.endswith (Str.lower base) ".lmdb") eqn:Hl.
  { intros [= <- <-]. by right. }
  destruct (String.eqb_spec db_type "HDF5") as [->|_].
  { intros [= <- <-]. left. split; [reflexivity|].
    rewrite lower_app. apply endswith_app. }
  destruct (String.eqb_spec db_type "LMDB") as [->|_]; [|discriminate].
  intros [= <- <-]. right. rewrite lower_app. repeat split.
  - by rewrite endswith_other.
  - apply endswith_app.
Qed.

Lemma check_db_again (annotation_file name ty : string) :
  (ty = "HDF5" /\ Str.endswith (Str.lower name) ".hdf5" = true) \/
  (ty = "LMDB" /\ Str.endswith (Str.lower name) ".hdf5" = false /\
   Str.endswith (Str.lower name) ".lmdb" = true) ->
  check_db annotation_file (Some name) ty = Accepted (name, ty).
Proof.
  intros Hcase. unfold check_db.
  assert (Hne : String.eqb name "" = false).
  { destruct name; [|reflexivity]. destruct Hcase as [[_ H]|(_ & _ & H)]; discriminate. }
  rewrite Hne.
  destruct Hcase as [[-> Hh]|(-> & Hh & Hl)]; by rewrite Hh, ?Hl.
Qed.

(** X1: when [modify_args] accepts the options, the name of the store
    ends, whatever the case of its letters, with the extension of its
    type; the type is LMDB exactly when the name does not end in ".hdf5",
    and this is the engine that the main block opens. *)
Theorem modify_args_store_consistent (float_str : Q -> string) (args a : CliArgs) :
  modify_args float_str args = Accepted a ->
  exists name,
    cli_db_name a = Some name /\
    db_name (to_Args a) = name /\
    ((cli_db_type a = "HDF5" /\ db_type (to_Args a) = HDF5 /\
      Str.endswith (Str.lower name) ".hdf5" = true) \/
     (cli_db_type a = "LMDB" /\ db_type (to_Args a) = LMDB /\
      Str.endswith (Str.lower name) ".hdf5" = false /\
      Str.endswith (Str.lower name) ".lmdb" = true)).
Proof.
  unfold modify_args.
  destruct (check_db _ _ _) as [[name ty]|e] eqn:Hdb; [|discriminate].
  cbn [cbind]. destruct (check_resize _ _) as [vf|e]; [|discriminate].
  cbn [cbind]. intros [= <-]. exists name. cbn.
  apply check_db_consistent in Hdb as [[-> Hh]|(-> & Hh & Hl)]; auto 10.
Qed.

Lemma modify_args_store_consistent_witness :
  let a := {| cli_annotation_file := "ann.json"; cli_db_name := Some "ann.hdf5";
              cli_db_type := "HDF5"; cli_tmp_dir := "/tmp"; cli_resize_mode := 1;
              cli_resize := Some "800x600"; cli_fps := -1; cli_sample_mode := 0;
              cli_sample := None; cli_threads := 0; cli_not_remove := false;
              cli_vf_setting := ["-vf"; "scale=800:600"] |} in
  exists name,
    cli_db_name a = Some name /\
    db_name (to_Args a) = name /\
    ((cli_db_type a = "HDF5" /\ db_type (to_Args a) = HDF5 /\
      Str.endswith (Str.lower name) ".hdf5" = true) \/
     (cli_db_type a = "LMDB" /\ db_type (to_Args a) = LMDB /\
      Str.endswith (Str.lower name) ".hdf5" = false /\
      Str.endswith (Str.lower name) ".lmdb" = true)).
Proof.
  intros a.
  apply (modify_args_store_consistent (fun _ => "25.0") (cli0 1 (Some "800x600")) a).
  reflexivity.
Defined.

(** X2: [modify_args] is idempotent: options it has accepted are accepted
    again and left as they are. *)
Theorem modify_args_idempotent (float_str : Q -> string) (args a : CliArgs) :
  modify_args float_str args = Accepted a ->
  modify_args float_str a = Accepted a.
Proof.
  unfold modify_args.
  destruct (check_db _ _ _) as [[name ty]|e] eqn:Hdb; [|discriminate].
  cbn [cbind]. destruct (check_resize _ _) as [vf|e] eqn:Hvf; [|discriminate].
  cbn [cbind]. intros [= <-]. cbn.
  apply check_db_consistent in Hdb.
  rewrite (check_db_again _ _ _ Hdb). cbn [cbind]. rewrite Hvf. reflexivity.
Qed.

Lemma modify_args_idempotent_witness :
  exists a,
    modify_args (fun _ => "25.0") (cli0 2 (Some "s480")) = Accepted a /\
    modify_args (fun _ => "25.0") a = Accepted a.
Proof.
  eexists. split; [reflexivity|].
  apply (modify_args_idempotent (fun _ => "25.0") (cli0 2 (Some "s480"))).
  reflexivity.
Defined.

(** X3: [modify_args] neither reads nor changes the sampling options: with
    any other sampling mode and parameter it accepts or rejects the same
    way and hands the new ones on untouched. *)
Theorem modify_args_ignores_sampling (float_str : Q -> string) (args : CliArgs)
    (sample_mode : Z) (sample : option string) :
  modify_args float_str (with_sampling sample_mode sample args)
  = checked_map (with_sampling sample_mode sample) (modify_args float_str args).
Proof.
  unfold modify_args. cbn.
  destruct (check_db _ _ _) as [[name ty]|e]; [|reflexivity].
  cbn. destruct (check_resize _ _) as [vf|e]; reflexivity.
Qed.

(** X4: a width or height that is not positive in resize mode 1 is
    rejected before the run starts: the script raises without creating a
    directory, opening the store or starting the transcoder, and writes no
    line. *)
Theorem bad_resize_stops_script {St : Type}
    (handle : forall X, op X -> St -> St * result X)
    (shuffle : list frame -> list frame) (float_str : Q -> string)
    (cli : CliArgs) (text W H : string) (rest : list string) (w h : Z)
    (sched : list nat) (s : St) :
  cli_resize_mode cli = 1 ->
  cli_resize cli = Some text ->
  Py.split_on "x" text = W :: H :: rest ->
  Py.int (Some W) = Ok w ->
  Py.int (Some H) = Ok h ->
  w <= 0 \/ h <= 0 ->
  exists e,
    script handle shuffle float_str cli sched s = (s, [], ([], Rejected e)).
Proof.
  intros Hmode Hresize Hsplit HW HH Hbad.
  unfold script, modify_args.
  destruct (check_db _ _ _) as [[name ty]|e]; [|by eexists].
  cbn [cbind]. unfold check_resize. rewrite Hmode, Hresize, Hsplit, HW, HH.
  cbn [Z.eqb Pos.eqb of_result cbind].
  assert (Hfalse : (0 <? w) && (0 <? h) = false).
  { apply andb_false_iff. destruct Hbad; [left|right]; lia. }
  rewrite Hfalse. cbn. by eexists.
Qed.

Lemma bad_resize_stops_script_witness :
  exists e,
    script Sim.handle (fun l => l) (fun _ => "25.0") (cli0 1 (Some "0x600")) []
      (Sim.annotated [Sim.video "/data/a/clip.mp4"] Sim.world0)
    = (Sim.annotated [Sim.video "/data/a/clip.mp4"] Sim.world0, [], ([], Rejected e)).
Proof.
  apply (bad_resize_stops_script Sim.handle (fun l => l) (fun _ => "25.0")
           (cli0 1 (Some "0x600")) "0x600" "0" "600" [] 0 600);
    [reflexivity | reflexivity | reflexivity | reflexivity | reflexivity | lia].
Defined.

(** ** Formatting and parsing numbers *)

Lemma of_uint_acc_value (d : Decimal.uint) (p : positive) :
  Z.pos (Pos.of_uint_acc d p) = uint_value d (Z.pos p).
Proof.
  revert p. induction d; intros p; cbn [Pos.of_uint_acc uint_value];
    try reflexivity; rewrite IHd; f_equal; lia.
Qed.

Lemma of_uint_value (d : Decimal.uint) : Z.of_N (Pos.of_uint d) = uint_value d 0.
Proof.
  induction d; cbn [Pos.of_uint uint_value]; try reflexivity;
    try (cbn [Z.of_N]; rewrite of_uint_acc_value; reflexivity).
  exact IHd.
Qed.

Lemma chars_app (s t : string) :
  list_ascii_of_string (s +:+ t) = list_ascii_of_string s ++ list_ascii_of_string t.
Proof.
  induction s as [|c s IH]; [reflexivity|].
  rewrite append_cons. cbn. by rewrite IH.
Qed.

Lemma parse_uint (d : Decimal.uint) (acc : Z) (after : bool) :
  d <> Decimal.Nil ->
  Py.parse_digits (list_ascii_of_string (NilEmpty.string_of_uint d)) acc after
  = Some (uint_value d acc).
Proof.
  assert (Htrue : forall d acc,
            Py.parse_digits (list_ascii_of_string (NilEmpty.string_of_uint d)) acc true
            = Some (uint_value d acc)).
  { clear. induction d; intros acc; [reflexivity|..]; apply IHd. }
  intros Hd. destruct d; [contradiction|..]; refine (Htrue _ _).
Qed.

Lemma uint_digits (d : Decimal.uint) :
  Forall (fun c => is_digit c = true) (list_ascii_of_string (NilEmpty.string_of_uint d)).
Proof. induction d; [constructor|..]; by constructor. Qed.

Lemma parse_zeros (k : nat) (cs : list ascii) (after : bool) :
  Py.parse_digits (list_ascii_of_string (Py.zeros k) ++ cs) 0 after
  = Py.parse_digits cs 0 (after || negb (k =? 0)%nat).
Proof.
  revert after. induction k as [|k IH]; intros after; cbn.
  - by rewrite orb_false_r.
  - change (Py.parse_digits (list_ascii_of_string (Py.zeros k) ++ cs) 0 true
            = Py.parse_digits cs 0 (after || true)).
    rewrite IH, orb_true_r. reflexivity.
Qed.

Lemma zeros_digits (k : nat) :
  Forall (fun c => is_digit c = true) (list_ascii_of_string (Py.zeros k)).
Proof. induction k; [constructor|]; by constructor. Qed.

(** The digits of a number that is not negative, and what they parse to. *)
Lemma str_of_Z_digits (z : Z) :
  0 <= z ->
  exists d, d <> Decimal.Nil /\
    Py.str_of_Z z = NilEmpty.string_of_uint d /\ uint_value d 0 = z.
Proof.
  intros Hz. destruct z as [|p|p]; [| |lia].
  - by exists (Decimal.D0 Decimal.Nil).
  - exists (Pos.to_uint p). repeat split.
    + apply DecimalPos.Unsigned.to_uint_nonnil.
    + unfold Py.str_of_Z. cbn.
      pose proof (DecimalPos.Unsigned.to_uint_nonnil p).
      by destruct (Pos.to_uint p).
    + by rewrite <- of_uint_value, DecimalPos.Unsigned.of_to.
Qed.

Lemma digit_not_space (c : ascii) : is_digit c = true -> Py.is_space c = false.
Proof.
  destruct c as [[] [] [] [] [] [] [] []]; vm_compute; intros H;
    first [reflexivity | discriminate H].
Qed.

Lemma drop_spaces_keep (l : list ascii) :
  (forall c l', l = c :: l' -> Py.is_space c = false) -> Py.drop_spaces l = l.
Proof.
  intros Hhead. destruct l as [|c l]; [reflexivity|].
  cbn. by rewrite (Hhead c l eq_refl).
Qed.

Lemma strip_digits (cs : list ascii) :
  Forall (fun c => is_digit c = true) cs -> Py.strip cs = cs.
Proof.
  intros Hcs. unfold Py.strip.
  rewrite (drop_spaces_keep cs), drop_spaces_keep, rev_involutive; [reflexivity| |].
  - intros c l' Hrev. apply digit_not_space.
    apply Forall_rev in Hcs. rewrite Hrev in Hcs. by apply Forall_cons in Hcs as [? _].
  - intros c l' ->. apply digit_not_space. by apply Forall_cons in Hcs as [? _].
Qed.

Lemma strip_minus_digits (cs : list ascii) :
  cs <> [] -> Forall (fun c => is_digit c = true) cs ->
  Py.strip ("-"%char :: cs) = "-"%char :: cs.
Proof.
  intros Hne Hcs. unfold Py.strip.
  rewrite (drop_spaces_keep ("-"%char :: cs)) by (by intros c l' [= <- _]).
  rewrite drop_spaces_keep.
  - apply rev_involutive.
  - cbn [rev]. intros c l' Hrev. apply digit_not_space.
    apply Forall_rev in Hcs.
    destruct (rev cs) as [|c0 r] eqn:Hr.
    + apply (f_equal (@length _)) in Hr. rewrite length_rev in Hr.
      destruct cs; [contradiction|discriminate].
    + injection Hrev as <- _. by apply Forall_cons in Hcs as [? _].
Qed.

(** A padded number that is not negative: its characters and its value. *)
Lemma zfill_parse (w : nat) (z : Z) :
  0 <= z ->
  Forall (fun c => is_digit c = true) (list_ascii_of_string (Py.zfill w (Py.str_of_Z z))) /\
  Py.zfill w (Py.str_of_Z z) <> "" /\
  forall after,
    Py.parse_digits (list_ascii_of_string (Py.zfill w (Py.str_of_Z z))) 0 after = Some z.
Proof.
  intros Hz. destruct (str_of_Z_digits z Hz) as (d & Hd & -> & Hval).
  unfold Py.zfill. rewrite chars_app. repeat split.
  - apply Forall_app. split; [apply zeros_digits|apply uint_digits].
  - intros Hempty. apply (f_equal String.length) in Hempty.
    rewrite string_app_length in Hempty. cbn in Hempty.
    destruct d; [contradiction|..]; cbn in Hempty; lia.
  - intros after. by rewrite parse_zeros, parse_uint, Hval.
Qed.

Lemma int_of_digits (s : string) (z : Z) :
  Forall (fun c => is_digit c = true) (list_ascii_of_string s) ->
  (forall after, Py.parse_digits (list_ascii_of_string s) 0 after = Some z) ->
  Py.int_of_str s = Some z.
Proof.
  intros Hdigits Hparse. unfold Py.int_of_str. rewrite strip_digits by exact Hdigits.
  specialize (Hparse false).
  destruct (list_ascii_of_string s) as [|c cs]; [exact Hparse|].
  apply Forall_cons in Hdigits as [Hc _].
  destruct c as [[] [] [] [] [] [] [] []]; try discriminate Hc; exact Hparse.
Qed.

(** Formatting with ["{:08d}"] and reading the text back with [int]. *)
Lemma int_of_fmt08d (z : Z) : Py.int_of_str (Py.fmt08d z) = Some z.
Proof.
  unfold Py.fmt08d. destruct (Z.ltb_spec z 0) as [Hneg|Hpos].
  - destruct (zfill_parse 7 (- z)) as (Hdigits & Hne & Hparse); [lia|].
    unfold Py.int_of_str.
    change (list_ascii_of_string ("-" +:+ Py.zfill 7 (Py.str_of_Z (- z))))
      with ("-"%char :: list_ascii_of_string (Py.zfill 7 (Py.str_of_Z (- z)))).
    rewrite strip_minus_digits; [| |exact Hdigits].
    + rewrite Hparse. cbn. f_equal. lia.
    + intros Hnil. apply Hne.
      by destruct (Py.zfill 7 (Py.str_of_Z (- z))).
  - destruct (zfill_parse 8 z Hpos) as (Hdigits & _ & Hparse).
    by apply int_of_digits.
Qed.

(** ** The uniform sampler for any [n] *)

(** Where the rounding of binary64 shows: for 30 frames and [n = 15]
    the product [7 * step] lies just above 14.5 and the position is 15,
    where the exact quotient 14.5 would give 14. *)
Lemma uniform_index_at_a_tie :
  uniform_index 30 15 = [0; 2; 4; 6; 8; 10; 12; 15; 17; 19; 21; 23; 25; 27; 29].
Proof. vm_compute. reflexivity. Qed.

(** The positions are those that IEEE 754 arithmetic gives, here for all
    lists of up to 40 frames and all [n] from 2 to 20. *)
Lemma uniform_index_as_IEEE754 :
  forallb (fun tot =>
    forallb (fun n =>
      bool_decide (uniform_index (Z.of_nat tot) (Z.of_nat n)
                   = uniform_index_b64 (Z.of_nat tot) (Z.of_nat n)))
      (seq 2 19)) (seq 0 41) = true.
Proof. vm_compute. reflexivity. Qed.

(** The positions of mode 1 for [n >= 2]. *)
Lemma uniform_index_pos (tot n : Z) :
  n <> 1 -> uniform_index tot n = map (uniform_pos tot n) (Py.range n).
Proof.
  intros Hn. unfold uniform_index.
  destruct (Z.eqb_spec n 1) as [|_]; [contradiction|]. reflexivity.
Qed.

Lemma uniform_index_length (tot n : Z) :
  0 < n -> Z.of_nat (length (uniform_index tot n)) = n.
Proof.
  intros Hn. unfold uniform_index, Py.range.
  destruct (n =? 1) eqn:Hone; [apply Z.eqb_eq in Hone; by subst|].
  rewrite !length_map, length_seq. lia.
Qed.

Lemma uniform_index_in_range (tot n : Z) :
  1 <= tot <= 2 ^ 50 -> 0 < n -> Forall (fun i => 0 <= i < tot) (uniform_index tot n).
Proof.
  intros [Htot Hbig] Hn. destruct (Z.eq_dec n 1) as [->|Hne].
  - unfold uniform_index. cbn [Z.eqb Pos.eqb]. constructor; [|constructor].
    rewrite Z.shiftr_div_pow2 by lia. change (2 ^ 1) with 2.
    split; [apply Z.div_pos; lia|apply Z.div_lt_upper_bound; lia].
  - rewrite uniform_index_pos by exact Hne.
    unfold Py.range. rewrite Forall_map, Forall_map. apply Forall_forall.
    intros k Hk%elem_of_seq.
    pose proof (uniform_pos_bounds tot n Htot ltac:(lia) (Z.of_nat k) Hbig ltac:(lia)).
    cbn. lia.
Qed.

Lemma uniform_index_sorted (tot n : Z) :
  1 <= tot -> 0 < n <= 2 ^ 52 -> StronglySorted Z.le (uniform_index tot n).
Proof.
  intros Htot [Hn Hbig]. destruct (Z.eq_dec n 1) as [->|Hne].
  - unfold uniform_index. cbn [Z.eqb Pos.eqb]. repeat constructor.
  - rewrite uniform_index_pos by exact Hne. unfold Py.range.
    assert (Hall : forall len start : nat,
              (Z.of_nat (start + len) <= n) ->
              StronglySorted Z.le (map (uniform_pos tot n) (map Z.of_nat (seq start len)))).
    { induction len as [|len IH]; intros start Hlen; cbn [seq map]; constructor.
      - apply IH. lia.
      - rewrite Forall_map, Forall_map. apply Forall_forall.
        intros k Hk%elem_of_seq. cbn.
        apply (uniform_pos_mono tot n Htot ltac:(lia)); lia. }
    apply Hall. lia.
Qed.

Lemma uniform_index_ends (tot n : Z) :
  1 <= tot <= 2 ^ 50 -> 2 <= n ->
  head (uniform_index tot n) = Some 0 /\ last (uniform_index tot n) = Some (tot - 1).
Proof.
  intros [Htot Hbig] Hn. rewrite uniform_index_pos by lia. unfold Py.range. split.
  - destruct (Z.to_nat n) as [|m] eqn:Hm; [lia|]. cbn [seq map head].
    change (Z.of_nat 0) with 0. by rewrite uniform_pos_first.
  - replace (Z.to_nat n) with (S (Z.to_nat (n - 1))) by lia.
    rewrite seq_S, !map_app. cbn [map]. rewrite last_snoc. f_equal.
    replace (Z.of_nat (0 + Z.to_nat (n - 1))) with (n - 1) by lia.
    by apply uniform_pos_last.
Qed.

Lemma rmapM_length {A B} (f : A -> result B) (l : list A) (r : list B) :
  rmapM f l = Ok r -> length r = length l.
Proof.
  revert r. induction l as [|x l IH]; intros r; cbn [rmapM].
  { by intros [= <-]. }
  destruct (f x) as [y|e]; [|discriminate]. cbn [rbind].
  destruct (rmapM f l) as [ys|e]; [|discriminate]. cbn [rbind].
  intros [= <-]. cbn. f_equal. by apply IH.
Qed.

(** Indexing with positions that are all in range. *)
Lemma index_all_in_range {A} (l : list A) (idx : list Z) :
  Forall (fun i => 0 <= i < Z.of_nat (length l)) idx ->
  exists r, rmapM (Py.index l) idx = Ok r /\
            Forall2 (fun i x => l !! Z.to_nat i = Some x) idx r.
Proof.
  induction 1 as [|i idx Hi _ (r & Hr & Hall)].
  - exists []. by split.
  - destruct (lookup_lt_is_Some_2 l (Z.to_nat i)) as [x Hx]; [lia|].
    exists (x :: r). cbn [rmapM].
    rewrite <- (Z2Nat.id i) at 1 by lia.
    rewrite (index_in_range l _ x Hx). cbn [rbind]. rewrite Hr. cbn [rbind].
    split; [reflexivity|by constructor].
Qed.

(** X5: in uniform mode with [n > 0], a non-empty frame list yields
    exactly [n] frames, without an index error: the frames at the
    positions [uniform_index], which never decrease, so the frames keep
    their order (with repetitions when n > N); for [n >= 2] the first and
    the last frame of the list are the first and the last of the result.
    The rounding of binary64 is accounted for; the sizes are those it
    leaves room for, at most [2 ** 50] frames and [n] at most [2 ** 52]. *)
Theorem uniform_returns_n_frames (shuffle : list frame -> list frame)
    (args : Args) (frames : list frame) (n : Z) :
  sample_mode args = 1 ->
  Py.int (sample args) = Ok n ->
  0 < n <= 2 ^ 52 ->
  frames <> [] ->
  Z.of_nat (length frames) <= 2 ^ 50 ->
  exists r,
    sample_frames shuffle args frames = Ok r /\
    Z.of_nat (length r) = n /\
    Forall2 (fun i f => frames !! Z.to_nat i = Some f)
            (uniform_index (Z.of_nat (length frames)) n) r /\
    StronglySorted Z.le (uniform_index (Z.of_nat (length frames)) n) /\
    (2 <= n -> head r = head frames /\ last r = last frames).
Proof.
  intros Hmode Hn [Hpos Hnbig] Hne Hbig.
  assert (Htot : 1 <= Z.of_nat (length frames) <= 2 ^ 50)
    by (destruct frames; [done|cbn in *; lia]).
  destruct (index_all_in_range frames (uniform_index (Z.of_nat (length frames)) n))
    as (r & Hr & Hall); [by apply uniform_index_in_range|].
  exists r. rewrite (sample_frames_valid shuffle args frames n) by (auto; lia).
  rewrite Hmode. cbn [Z.eqb Pos.eqb].
  pose proof (Forall2_length _ _ _ Hall) as Hlen.
  pose proof (uniform_index_length (Z.of_nat (length frames)) n Hpos) as Hidx.
  repeat split; auto.
  - lia.
  - apply uniform_index_sorted; lia.
  - destruct (uniform_index_ends (Z.of_nat (length frames)) n Htot H) as [Hhead _].
    destruct Hall as [|i f idx r' Hf _]; [discriminate|].
    injection Hhead as ->. cbn. by rewrite head_lookup.
  - destruct (uniform_index_ends (Z.of_nat (length frames)) n Htot H) as [_ Hlast].
    rewrite last_lookup in Hlast.
    destruct (Forall2_lookup_l _ _ _ _ _ Hall Hlast) as (f & Hf & Hframe).
    rewrite !last_lookup, <- Hlen, Hf, <- Hframe. f_equal. lia.
Qed.

Lemma uniform_returns_n_frames_witness :
  exists r,
    sample_frames (fun l => l) (Sim.args0 "/tmp" 1 "7" 0) (numbered_frames 3) = Ok r /\
    Z.of_nat (length r) = 7 /\
    head r = head (numbered_frames 3) /\ last r = last (numbered_frames 3).
Proof.
  destruct (uniform_returns_n_frames (fun l => l) (Sim.args0 "/tmp" 1 "7" 0)
              (numbered_frames 3) 7) as (r & Hr & Hlen & _ & _ & Hends);
    [reflexivity | reflexivity | lia | discriminate | cbn; lia |].
  exists r. destruct Hends; [lia|]. auto.
Defined.



(** X7: [sample_frames] returns frames only for keep_all, or for one of
    the modes 1, 2, 3 with a parameter that [int] reads as a positive
    number; a missing or malformed parameter, one that is not positive, or
    another mode always ends in an exception. *)
Theorem sampling_succeeds_only_if_valid (shuffle : list frame -> list frame)
    (args : Args) (frames r : list frame) :
  sample_frames shuffle args frames = Ok r ->
  (sample_mode args = 0 /\ r = frames) \/
  ((sample_mode args = 1 \/ sample_mode args = 2 \/ sample_mode args = 3) /\
   exists n, Py.int (sample args) = Ok n /\ 0 < n).
Proof.
  unfold sample_frames.
  destruct (Z.eqb_spec (sample_mode args) 0) as [H0|_].
  { intros [= <-]. by left. }
  destruct (Py.int (sample args)) as [n|e]; [|discriminate]. cbn [rbind].
  destruct (Z.ltb_spec 0 n) as [Hpos|_]; [|discriminate]. cbn [negb].
  destruct (Z.eqb_spec (sample_mode args) 1) as [H1|_]; [intros _; right; eauto 6|].
  destruct (Z.eqb_spec (sample_mode args) 2) as [H2|_]; [intros _; right; eauto 6|].
  destruct (Z.eqb_spec (sample_mode args) 3) as [H3|_]; [intros _; right; eauto 6|].
  discriminate.
Qed.

Lemma sampling_succeeds_only_if_valid_witness :
  (sample_mode (Sim.args0 "/tmp" 3 "2" 0) = 0 /\
   Py.slice_step (numbered_frames 3) 2 = numbered_frames 3) \/
  ((sample_mode (Sim.args0 "/tmp" 3 "2" 0) = 1 \/ sample_mode (Sim.args0 "/tmp" 3 "2" 0) = 2
    \/ sample_mode (Sim.args0 "/tmp" 3 "2" 0) = 3) /\
   exists n, Py.int (sample (Sim.args0 "/tmp" 3 "2" 0)) = Ok n /\ 0 < n).
Proof.
  apply (sampling_succeeds_only_if_valid (fun l => l) (Sim.args0 "/tmp" 3 "2" 0)
           (numbered_frames 3)).
  reflexivity.
Defined.

(** X8: from a non-empty frame list [sample_frames] never returns an empty
    one, whatever the mode and the order the shuffle leaves: the guard
    "No frames in video" of [process] cannot be reached through it. *)
Theorem sampling_keeps_some_frame (shuffle : list frame -> list frame)
    (args : Args) (frames files : list frame) :
  frames <> [] ->
  shuffle frames ≡ₚ frames ->
  sample_frames shuffle args frames = Ok files ->
  files <> [].
Proof.
  intros Hne Hshuf. unfold sample_frames.
  destruct (Z.eqb_spec (sample_mode args) 0) as [_|_]; [by intros [= <-]|].
  destruct (Py.int (sample args)) as [n|e]; [|discriminate]. cbn [rbind].
  destruct (Z.ltb_spec 0 n) as [Hpos|_]; [|discriminate]. cbn [negb].
  destruct (Z.eqb_spec (sample_mode args) 1) as [_|_];
    [|destruct (Z.eqb_spec (sample_mode args) 2) as [_|_];
      [|destruct (Z.eqb_spec (sample_mode args) 3) as [_|_]; [|discriminate]]];
    intros Hfiles.
  - apply rmapM_length in Hfiles.
    pose proof (uniform_index_length (Z.of_nat (length frames)) n Hpos) as Hidx.
    intros ->. cbn in Hfiles. lia.
  - injection Hfiles as <-. intros Hnil.
    pose proof (sort_by_perm fst (take (Z.to_nat (n `min` Z.of_nat (length frames)))
                                    (shuffle frames))) as Hperm.
    rewrite Hnil in Hperm. apply Permutation_nil in Hperm.
    apply (f_equal (@length _)) in Hperm. rewrite length_take in Hperm.
    pose proof (Permutation_length Hshuf : length (shuffle frames) = length frames).
    unfold frame in *. destruct frames; [done|]. cbn in *. lia.
  - injection Hfiles as <-. destruct frames; [done|]. discriminate.
Qed.

Lemma sampling_keeps_some_frame_witness :
  Py.sort_by fst (take 2 (rev (numbered_frames 4))) <> [].
Proof.
  apply (sampling_keeps_some_frame (@rev frame) (Sim.args0 "/tmp" 2 "2" 0)
           (numbered_frames 4));
    [discriminate | symmetry; apply Permutation_rev | reflexivity].
Defined.

(** ** Keys *)

Lemma digits_without (sep : ascii) (s : string) :
  is_digit sep = false ->
  Forall (fun c => is_digit c = true) (list_ascii_of_string s) ->
  contains sep s = false.
Proof.
  intros Hsep. induction s as [|c s IH]; cbn; [reflexivity|].
  intros [Hc Hs]%Forall_cons. rewrite (IH Hs), orb_false_r.
  destruct (Ascii.eqb_spec c sep) as [->|]; [congruence|reflexivity].
Qed.

Lemma fmt08d_without (sep : ascii) (z : Z) :
  is_digit sep = false -> sep <> "-"%char -> contains sep (Py.fmt08d z) = false.
Proof.
  intros Hsep Hminus. unfold Py.fmt08d. destruct (Z.ltb_spec z 0).
  - destruct (zfill_parse 7 (- z)) as (Hdigits & _); [lia|].
    rewrite append_cons, append_nil. cbn [contains].
    rewrite (digits_without sep _ Hsep Hdigits), orb_false_r.
    by apply Ascii.eqb_neq.
  - destruct (zfill_parse 8 z) as (Hdigits & _); [lia|].
    by apply digits_without.
Qed.

Lemma split_on_app (sep : ascii) (a b : string) :
  contains sep a = false ->
  Py.split_on sep (a +:+ String sep b) = a :: Py.split_on sep b.
Proof.
  induction a as [|c a IH]; intros Ha.
  - rewrite append_nil. cbn. by rewrite Ascii.eqb_refl.
  - rewrite append_cons. cbn in Ha. apply orb_false_iff in Ha as [Hc Ha].
    cbn [Py.split_on]. rewrite Hc, (IH Ha). reflexivity.
Qed.

Lemma frame_key_parts (video_ith frame_ith : Z) :
  Py.split_on "/" (frame_key video_ith frame_ith)
  = [Py.fmt08d video_ith; Py.fmt08d frame_ith].
Proof.
  unfold frame_key.
  change (Py.fmt08d video_ith +:+ "/" +:+ Py.fmt08d frame_ith)
    with (Py.fmt08d video_ith +:+ String "/" (Py.fmt08d frame_ith)).
  rewrite split_on_app by (by apply fmt08d_without).
  rewrite split_on_whole by (by apply fmt08d_without). reflexivity.
Qed.

Lemma fmt08d_inj (a b : Z) : Py.fmt08d a = Py.fmt08d b -> a = b.
Proof.
  intros H. apply (f_equal Py.int_of_str) in H.
  rewrite !int_of_fmt08d in H. congruence.
Qed.

(** X9: the composite key determines the video and the position: two
    writes have the same key exactly for the same video index and the
    same frame position. *)
Theorem frame_key_inj (video_ith frame_ith video_ith' frame_ith' : Z) :
  frame_key video_ith frame_ith = frame_key video_ith' frame_ith' <->
  video_ith = video_ith' /\ frame_ith = frame_ith'.
Proof.
  split; [|by intros [-> ->]].
  intros Hkey. apply (f_equal (Py.split_on "/")) in Hkey.
  rewrite !frame_key_parts in Hkey. injection Hkey as Hv Hf.
  split; by apply fmt08d_inj.
Qed.

(** ** Every run of [process] *)

Lemma quiet_trace (tr : list event) :
  Forall quiet tr -> put_keys tr = [] /\ rmtree_targets tr = [].
Proof.
  unfold put_keys, rmtree_targets.
  induction 1 as [|ev tr [Hput Hrm] _ [IH1 IH2]]; cbn; [done|].
  by rewrite Hput, Hrm.
Qed.

Lemma video_to_frames_quiet (args : Args) (video_file tmp : Path) :
  always quiet (fun _ => True) (video_to_frames args video_file tmp).
Proof.
  unfold video_to_frames.
  apply always_bind, always_call. intros r. split; [done|]. destruct r; [|done].
  apply always_bind, always_call. intros r. split; [done|]. destruct r as [files|]; [|done].
  apply always_bind, always_lift. by destruct (rmapM frame_of_file files).
Qed.

Section ProcessRuns.

Context {St : Type}.
Variable handle : forall X, op X -> St -> St * result X.
Variable shuffle : list frame -> list frame.
Variable args : Args.

Lemma exec_put_trace (frame_db : Storage) (k : string) (v : db_value) (s : St) :
  put_keys (exec handle (put frame_db k v) s).1.2 = [k] /\
  rmtree_targets (exec handle (put frame_db k v) s).1.2 = [].
Proof. destruct frame_db; unfold put; by rewrite exec_call. Qed.

Lemma exec_write_loop_any (video_ith : Z) (tmp : Path) (frame_db : Storage)
    (files : list frame) (start : Z) (s s' : St) (tr : list event) (r : result unit) :
  exec handle
    (for_each (enumerate_from start files) (fun '(frame_ith, (frame_id, frame_path)) =>
       let key := frame_key video_ith frame_ith in
       pbind (call (ReadFile (Pathlib.join tmp frame_path))) (fun b =>
         put frame_db key (match db_type args with LMDB => VBytes b | HDF5 => VVoid b end))))
    s = (s', tr, r) ->
  rmtree_targets tr = [] /\
  exists k, (k <= length files)%nat /\
    put_keys tr = map (fun j => frame_key video_ith (start + Z.of_nat j)) (seq 0 k).
Proof.
  revert start s s' tr r.
  induction files as [|[frame_id frame_path] rest IH]; intros start s s' tr r.
  { cbn. intros [= <- <- <-]. split; [done|]. by exists 0%nat. }
  cbn [enumerate_from for_each length].
  rewrite exec_bind, exec_bind, exec_call.
  destruct (handle bytes _ s) as [s1 [b|e]]; cbn [fst snd].
  2:{ intros [= <- <- <-]. split; [done|]. exists 0%nat. split; [lia|done]. }
  match goal with |- context [exec handle (put ?d ?k ?v) s1] =>
    pose proof (exec_put_trace d k v s1) as [Hput Hrm];
    destruct (exec handle (put d k v) s1) as [[s2 tr2] [[]|e]]
  end; cbn [fst snd] in Hput, Hrm.
  2:{ intros [= <- <- <-]. unfold put_keys, rmtree_targets in *.
      cbn [omap list_omap put_key rmtree_target]. rewrite Hput, Hrm.
      split; [done|]. exists 1%nat. split; [lia|]. cbn. by rewrite Z.add_0_r. }
  destruct (exec handle (for_each _ _) s2) as [[s3 tr3] r3] eqn:Hrest.
  intros [= <- <- <-].
  apply IH in Hrest as (Hrm3 & k & Hk & Hkeys).
  unfold put_keys, rmtree_targets in *.
  cbn [omap list_omap put_key rmtree_target]. rewrite !omap_app, Hput, Hrm, Hrm3, Hkeys.
  split; [done|]. exists (S k). split; [lia|].
  cbn. rewrite Z.add_0_r. f_equal.
  rewrite <- seq_shift, map_map. apply map_ext. intros j. f_equal. lia.
Qed.

(** The three ways a call of [process] can go. *)
Lemma process_run_cases (video_ith : Z) (video_info : Annotation)
    (frame_db : Storage) (s s' : St) (tr : list event) (r : result string) :
  exec handle (process shuffle args video_ith video_info frame_db) s = (s', tr, r) ->
  process_shape args video_ith video_info tr r.
Proof.
  assert (Hzero : forall tr0 e, put_keys tr0 = [] -> rmtree_targets tr0 = [] ->
            process_shape args video_ith video_info tr0 (Raise e)).
  { intros tr0 e Hp Hr. exists 0%nat. split; [exact Hp|]. left. exists e.
    repeat split; [exact Hr|lia]. }
  unfold process. rewrite exec_bind, exec_call.
  destruct (handle unit _ s) as [s1 [[]|e]]; cbn [fst snd].
  2:{ intros [= <- <- <-]. by apply Hzero. }
  rewrite exec_bind.
  pose proof (exec_always handle quiet (fun _ => True) _ s1
                (video_to_frames_quiet args (Pathlib.of_str (path video_info))
                   (video_tmp_dir args video_info))) as [Hquiet _].
  apply quiet_trace in Hquiet as [Hput2 Hrm2].
  destruct (exec handle (video_to_frames _ _ _) s1) as [[s2 tr2] [frames|e]];
    cbn [fst snd] in Hput2, Hrm2.
  2:{ intros [= <- <- <-]. apply Hzero; unfold put_keys, rmtree_targets in *; cbn;
        assumption. }
  destruct frames as [|f0 frames].
  { cbn. intros [= <- <- <-]. apply Hzero; unfold put_keys, rmtree_targets in *;
      cbn; rewrite ?omap_app, ?Hput2, ?Hrm2; reflexivity. }
  rewrite exec_bind, exec_lift.
  destruct (sample_frames shuffle args (f0 :: frames)) as [files|e].
  2:{ intros [= <- <- <-]. apply Hzero; unfold put_keys, rmtree_targets in *;
        cbn; rewrite ?omap_app, ?Hput2, ?Hrm2; reflexivity. }
  destruct files as [|g0 files].
  { cbn. intros [= <- <- <-]. apply Hzero; unfold put_keys, rmtree_targets in *;
      cbn; rewrite ?omap_app, ?Hput2, ?Hrm2; reflexivity. }
  rewrite exec_bind, exec_try_except.
  destruct (exec handle (write_frames _ _ _ _ _) s2) as [[s3 tr3] rw] eqn:Hwrite.
  pose proof Hwrite as Hfull.
  unfold write_frames, enumerate in Hwrite.
  apply exec_write_loop_any in Hwrite as (Hrm3 & k & Hk & Hkeys).
  assert (Hrange : put_keys tr3 = map (frame_key video_ith) (Py.range (Z.of_nat k))).
  { rewrite Hkeys. unfold Py.range. rewrite Nat2Z.id, map_map. reflexivity. }
  destruct rw as [[]|e].
  - (* the loop completed *)
    rewrite exec_bind.
    destruct (exec handle (if not_remove args then _ else _) s3) as [[s4 tr4] r4] eqn:Hrm.
    assert (Hfin : r4 = Ok tt /\ put_keys tr4 = [] /\
                   rmtree_targets tr4
                   = if not_remove args then [] else [video_tmp_dir args video_info]).
    { destruct (not_remove args); cbn in Hrm.
      - by injection Hrm as <- <- <-.
      - destruct (handle unit _ s3) as [s5 r5]. by injection Hrm as <- <- <-. }
    destruct Hfin as (-> & Hput4 & Hrm4).
    cbn. intros [= <- <- <-]. exists k. split.
    + unfold put_keys in *. cbn [omap list_omap put_key].
      rewrite !omap_app, Hput2, Hput4, Hrange. cbn [app omap list_omap].
      by rewrite ?app_nil_r.
    + right. split; [reflexivity|]. unfold rmtree_targets in *.
      cbn [omap list_omap rmtree_target].
      rewrite !omap_app, Hrm2, Hrm3, Hrm4. cbn [app omap list_omap].
      by rewrite ?app_nil_r.
  - (* the loop raised *)
    cbn. intros [= <- <- <-]. exists k. split.
    + unfold put_keys in *. cbn [omap list_omap put_key].
      rewrite !omap_app, Hput2, Hrange. cbn [app omap list_omap].
      by rewrite ?app_nil_r.
    + left. eexists. split; [reflexivity|]. split; [|reflexivity].
      unfold rmtree_targets in *. cbn [omap list_omap rmtree_target].
      rewrite !omap_app, Hrm2, Hrm3. cbn [app omap list_omap].
      by rewrite ?app_nil_r.
Qed.

(** X10: whatever a call of [process] meets and however it ends, its put
    requests are for the keys of the positions 0, 1, 2, ... of its video
    in this order, without a gap and each key once: also after a failure
    the keys it asked to write are a leading part of the positions. *)
Theorem process_puts_a_prefix (video_ith : Z) (video_info : Annotation)
    (frame_db : Storage) (s : St) :
  let tr := (exec handle (process shuffle args video_ith video_info frame_db) s).1.2 in
  (exists k : nat, put_keys tr = map (frame_key video_ith) (Py.range (Z.of_nat k))) /\
  NoDup (put_keys tr).
Proof.
  destruct (exec handle (process shuffle args video_ith video_info frame_db) s)
    as [[s' tr] r] eqn:Hrun.
  apply process_run_cases in Hrun as (k & Hkeys & _). cbn [fst snd].
  split; [by exists k|]. rewrite Hkeys.
  apply NoDup_fmap_2.
  - intros p q Hpq. unfold frame_key in Hpq.
    apply (inj (String.app _)), (inj (String.app _)) in Hpq. by apply fmt08d_inj.
  - unfold Py.range. apply NoDup_fmap_2; [apply Nat2Z.inj'|apply NoDup_seq].
Qed.

(** X11: [process] either returns "OK" or raises, and it removes nothing
    but its own working directory: when it returns "OK" and [not_remove]
    is off there is exactly that one removal request; when it raises, or
    [not_remove] is on, it asks for no removal and the extracted files
    stay. *)
Theorem process_removes_only_on_success (video_ith : Z) (video_info : Annotation)
    (frame_db : Storage) (s : St) :
  let run := exec handle (process shuffle args video_ith video_info frame_db) s in
  rmtree_targets run.1.2
  = match run.2 with
    | Ok _ => if not_remove args then [] else [video_tmp_dir args video_info]
    | Raise _ => []
    end /\
  (run.2 = Ok "OK" \/ exists e, run.2 = Raise e).
Proof.
  destruct (exec handle (process shuffle args video_ith video_info frame_db) s)
    as [[s' tr] r] eqn:Hrun.
  apply process_run_cases in Hrun as (k & _ & [(e & -> & Hrm & _)|[-> Hrm]]);
    cbn [fst snd].
  - split; [exact Hrm|]. right. by exists e.
  - split; [exact Hrm|]. by left.
Qed.

(** X12: once [process] has sent a put request, the only exception it can
    still raise is the RuntimeError "Video exists in database". *)
Theorem failure_after_a_put (video_ith : Z) (video_info : Annotation)
    (frame_db : Storage) (s s' : St) (tr : list event) (e : exn) :
  exec handle (process shuffle args video_ith video_info frame_db) s = (s', tr, Raise e) ->
  put_keys tr <> [] ->
  e = Exn RuntimeError "Video exists in database".
Proof.
  intros Hrun Hput.
  apply process_run_cases in Hrun as (k & Hkeys & [(e' & [= <-] & _ & Hk)|[[=] _]]).
  apply Hk. destruct k; [|lia]. by rewrite Hkeys in Hput.
Qed.

End ProcessRuns.

Lemma failure_after_a_put_witness :
  exists s' tr e,
    exec Sim.handle
      (process (fun l => l) (Sim.args0 "/tmp" 0 "" 0) 0 (Sim.video "/data/a/clip.mp4")
         HDF5Storage) Sim.world_used = (s', tr, Raise e) /\
    put_keys tr <> [] /\
    e = Exn RuntimeError "Video exists in database".
Proof.
  eexists _, _, _. split; [vm_compute; reflexivity|].
  split; [vm_compute; discriminate|].
  eapply (failure_after_a_put Sim.handle (fun l => l) (Sim.args0 "/tmp" 0 "" 0) 0
            (Sim.video "/data/a/clip.mp4") HDF5Storage Sim.world_used);
    [vm_compute; reflexivity | vm_compute; discriminate].
Defined.

(** ** Every run of the main block *)






(** ** [video_to_frames] *)

Lemma parsed_files (listing : list Path) (parsed : list frame) :
  rmapM frame_of_file listing = Ok parsed ->
  map snd parsed = listing /\
  Forall (fun x => Py.int (Some (stem (snd x))) = Ok (fst x)) parsed.
Proof.
  revert parsed. induction listing as [|f listing IH]; intros parsed; cbn [rmapM].
  { intros [= <-]. by split. }
  unfold frame_of_file at 1. fold (stem f).
  destruct (Py.int (Some (stem f))) as [i|e] eqn:Hi; [|discriminate]. cbn [rbind].
  destruct (rmapM frame_of_file listing) as [rest|e]; [|discriminate]. cbn [rbind].
  intros [= <-]. destruct (IH rest eq_refl) as [Hsnd Hall].
  split; [cbn; by f_equal|]. by constructor.
Qed.

Lemma stray_file (listing : list Path) (f : Path) :
  f ∈ listing -> Py.int_of_str (stem f) = None ->
  exists e, rmapM frame_of_file listing = Raise e /\ exn_cls e = ValueError.
Proof.
  intros Hin Hstem. induction listing as [|g listing IH]; [by apply elem_of_nil in Hin|].
  cbn [rmapM]. unfold frame_of_file at 1. fold (stem g).
  destruct (Py.int (Some (stem g))) as [i|e] eqn:Hi; cbn [rbind].
  - apply elem_of_cons in Hin as [->|Hin].
    + unfold Py.int in Hi. by rewrite Hstem in Hi.
    + destruct (IH Hin) as (e & -> & He). by exists e.
  - exists e. split; [reflexivity|]. unfold Py.int in Hi.
    destruct (Py.int_of_str (stem g)); [discriminate|]. by injection Hi as <-.
Qed.

(** X14: when [video_to_frames] returns, whatever the exit status of the
    transcoder, its result is the listing of the working directory, each
    file once and paired with the number that [int] reads from the part of
    its name before the first dot, in ascending order of that number. *)
Theorem video_to_frames_sorted_listing {St : Type}
    (handle : forall X, op X -> St -> St * result X)
    (args : Args) (video_file tmp : Path) (s s' : St) (tr : list event)
    (frames : list frame) :
  exec handle (video_to_frames args video_file tmp) s = (s', tr, Ok frames) ->
  exists listing,
    listings tr = [listing] /\
    map snd frames ≡ₚ listing /\
    Forall (fun x => Py.int (Some (stem (snd x))) = Ok (fst x)) frames /\
    StronglySorted (key_le fst) frames.
Proof.
  unfold video_to_frames. rewrite exec_bind, exec_call.
  destruct (handle Z _ s) as [s1 [code|e]]; cbn [fst snd]; [|discriminate].
  rewrite exec_bind, exec_call.
  destruct (handle (list Path) _ s1) as [s2 [listing|e]]; cbn [fst snd]; [|discriminate].
  rewrite exec_bind, exec_lift.
  destruct (rmapM frame_of_file listing) as [parsed|e] eqn:Hparsed; [|discriminate].
  cbn. intros [= <- <- <-]. exists listing.
  destruct (parsed_files listing parsed Hparsed) as [Hsnd Hall].
  repeat split.
  - by rewrite (sort_by_perm fst parsed), Hsnd.
  - by rewrite (sort_by_perm fst parsed).
  - apply sort_by_sorted.
Qed.

Lemma video_to_frames_sorted_listing_witness :
  exists listing,
    listings (exec Sim.handle
                (video_to_frames (Sim.args0 "/tmp" 0 "" 0)
                   (Pathlib.of_str "/data/a/clip.mp4") (Pathlib.of_str "/tmp"))
                Sim.world0).1.2 = [listing] /\
    [Pathlib.of_str "/tmp/00000001.jpg"; Pathlib.of_str "/tmp/00000002.jpg";
     Pathlib.of_str "/tmp/00000003.jpg"] ≡ₚ listing.
Proof.
  edestruct (video_to_frames_sorted_listing Sim.handle (Sim.args0 "/tmp" 0 "" 0)
               (Pathlib.of_str "/data/a/clip.mp4") (Pathlib.of_str "/tmp") Sim.world0)
    as (listing & Hl & Hperm & _); [vm_compute; reflexivity|].
  exists listing. split; [exact Hl|exact Hperm].
Defined.

(** X15: one file in the working directory whose name does not start
    with an integer, a stray file next to the frames, makes
    [video_to_frames] raise ValueError: no frame of the video is
    returned. *)
Theorem stray_file_fails_the_video {St : Type}
    (handle : forall X, op X -> St -> St * result X)
    (args : Args) (video_file tmp : Path) (s : St) (listing : list Path) (f : Path) :
  let run := exec handle (video_to_frames args video_file tmp) s in
  listings run.1.2 = [listing] ->
  f ∈ listing ->
  Py.int_of_str (stem f) = None ->
  exists e, run.2 = Raise e /\ exn_cls e = ValueError.
Proof.
  unfold video_to_frames. rewrite exec_bind, exec_call.
  destruct (handle Z _ s) as [s1 [code|e]]; cbn [fst snd]; [|discriminate].
  rewrite exec_bind, exec_call.
  destruct (handle (list Path) _ s1) as [s2 [listing'|e]]; cbn [fst snd]; [|discriminate].
  rewrite exec_bind, exec_lift.
  destruct (rmapM frame_of_file listing') as [parsed|e] eqn:Hparsed; cbn.
  - intros [= <-] Hin Hstem.
    destruct (stray_file listing' f Hin Hstem) as (e & He & _). congruence.
  - intros [= <-] Hin Hstem.
    destruct (stray_file listing' f Hin Hstem) as (e' & He & Hcls).
    exists e. split; [reflexivity|]. congruence.
Qed.

Lemma stray_file_fails_the_video_witness :
  exists e,
    (exec Sim.handle
       (video_to_frames (Sim.args0 "/tmp" 0 "" 0) (Pathlib.of_str "/data/none.mp4")
          (Pathlib.of_str "/tmp"))
       {| Sim.dirs := [Pathlib.of_str "/tmp"];
          Sim.files := [(Pathlib.of_str "/tmp/notes.txt", [])];
          Sim.store := ∅; Sim.clips := []; Sim.jsons := [] |}).2 = Raise e /\
    exn_cls e = ValueError.
Proof.
  apply (stray_file_fails_the_video Sim.handle (Sim.args0 "/tmp" 0 "" 0)
           (Pathlib.of_str "/data/none.mp4") (Pathlib.of_str "/tmp") _
           [Pathlib.of_str "/tmp/notes.txt"] (Pathlib.of_str "/tmp/notes.txt"));
    [reflexivity | repeat constructor | reflexivity].
Defined.

Lemma contains_app (sep : ascii) (a b : string) :
  contains sep (a +:+ b) = contains sep a || contains sep b.
Proof.
  induction a as [|c a IH]; [reflexivity|].
  rewrite append_cons. cbn [contains]. by rewrite IH, orb_assoc.
Qed.

(** A single name, read as a path. *)
Lemma of_str_name (c : string) :
  contains "/" c = false -> c <> "" -> c <> "." ->
  Pathlib.of_str c = {| is_abs := false; comps := [c] |}.
Proof.
  intros Hslash Hempty Hdot. unfold Pathlib.of_str.
  rewrite (split_on_whole _ _ Hslash). cbn [List.filter]. unfold Pathlib.keep_comp.
  destruct (String.eqb_spec c "") as [|_]; [contradiction|].
  destruct (String.eqb_spec c ".") as [|_]; [contradiction|]. cbn.
  f_equal. destruct c as [|a c]; [reflexivity|].
  cbn in *. by destruct (Ascii.eqb a "/").
Qed.

(** X16: a file that is named with ["{:08d}"] and the extension ".jpg",
    in whatever directory, is read by [video_to_frames] as the frame of
    that number: formatting a frame number and parsing the file name are
    inverse to each other. *)
Theorem numbered_file_parses (dir : Path) (z : Z) :
  let f := Pathlib.join dir (Pathlib.of_str (Py.fmt08d z +:+ ".jpg")) in
  frame_of_file f = Ok (z, f).
Proof.
  intros f. unfold frame_of_file.
  assert (Hname : Pathlib.name f = Py.fmt08d z +:+ ".jpg").
  { subst f. rewrite of_str_name.
    - unfold Pathlib.join, Pathlib.name. cbn [is_abs comps]. apply last_last.
    - rewrite contains_app, fmt08d_without by done. reflexivity.
    - intros Hnil. apply (f_equal String.length) in Hnil.
      rewrite string_app_length in Hnil. cbn in Hnil. lia.
    - intros Hdot. apply (f_equal String.length) in Hdot.
      rewrite string_app_length in Hdot. cbn in Hdot. lia. }
  rewrite Hname.
  change (Py.fmt08d z +:+ ".jpg") with (Py.fmt08d z +:+ String "." "jpg").
  rewrite split_on_app by (by apply fmt08d_without).
  cbn [List.hd]. unfold Py.int. by rewrite int_of_fmt08d.
Qed.

(** ** The loader of the example *)

Lemma clip_entries_lookup (blobs : list bytes) (start q : Z) :
  (list_to_map (map (fun '(p, b) => (Py.fmt08d p, b)) (enumerate_from start blobs))
     : gmap string bytes) !! Py.fmt08d q
  = if start <=? q then blobs !! Z.to_nat (q - start) else None.
Proof.
  revert start. induction blobs as [|b blobs IH]; intros start.
  { cbn. rewrite lookup_empty. by destruct (start <=? q). }
  cbn [enumerate_from map list_to_map foldr uncurry].
  destruct (Z.eq_dec start q) as [->|Hne].
  - rewrite lookup_insert_eq, Z.leb_refl, Z.sub_diag. reflexivity.
  - rewrite lookup_insert_ne by (intros H%fmt08d_inj; contradiction).
    change (foldr _ _ _) with
      (list_to_map (map (fun '(p, b) => (Py.fmt08d p, b))
                        (enumerate_from (start + 1) blobs)) : gmap string bytes).
    rewrite IH.
    destruct (Z.leb_spec (start + 1) q), (Z.leb_spec start q); try lia; [|reflexivity].
    replace (Z.to_nat (q - start)) with (S (Z.to_nat (q - (start + 1)))) by lia.
    reflexivity.
Qed.

(** The frame at a position is found under the key of the position. *)
Lemma clip_of_lookup (blobs : list bytes) (i : Z) :
  0 <= i -> clip_of blobs !! Py.fmt08d i = blobs !! Z.to_nat i.
Proof.
  intros Hi. etrans; [apply (clip_entries_lookup blobs 0 i)|].
  destruct (Z.leb_spec 0 i); [|lia]. by rewrite Z.sub_0_r.
Qed.

Lemma clip_entries_size (blobs : list bytes) (start : Z) :
  size (list_to_map (map (fun '(p, b) => (Py.fmt08d p, b)) (enumerate_from start blobs))
          : gmap string bytes) = length blobs.
Proof.
  revert start. induction blobs as [|b blobs IH]; intros start; [reflexivity|].
  cbn [enumerate_from map list_to_map foldr uncurry length].
  change (foldr _ _ _) with
    (list_to_map (map (fun '(p, b) => (Py.fmt08d p, b))
                      (enumerate_from (start + 1) blobs)) : gmap string bytes).
  rewrite map_size_insert_None, IH; [reflexivity|].
  etrans; [apply (clip_entries_lookup blobs (start + 1) start)|].
  destruct (Z.leb_spec (start + 1) start); [lia|reflexivity].
Qed.

Lemma clip_of_size (blobs : list bytes) : size (clip_of blobs) = length blobs.
Proof. apply clip_entries_size. Qed.

(** The positions 0, 1, 2, ... of a list. *)
Lemma range_positions {A} (l : list A) :
  Forall2 (fun i x => 0 <= i /\ l !! Z.to_nat i = Some x) (Py.range (Z.of_nat (length l))) l.
Proof.
  apply Forall2_same_length_lookup. unfold Py.range. split.
  - rewrite length_map, length_seq. lia.
  - intros i z x Hz Hx. rewrite list_lookup_fmap in Hz.
    destruct (seq 0 (Z.to_nat (Z.of_nat (length l))) !! i) as [j|] eqn:Hj; [|discriminate].
    apply lookup_seq in Hj as [-> _]. injection Hz as <-.
    split; [lia|]. by rewrite Nat2Z.id.
Qed.


Section LoaderFacts.

Context {image ndarray : Type}.
Variable imread : bytes -> result image.
Variable np_array : list image -> ndarray.
Variable shape : ndarray -> list Z.
Variable randint : Z -> Z -> result Z.
Variable crop : ndarray -> Z -> Z -> Z -> Z -> ndarray.

(** Decoding the frames at given positions of a clip. *)
Lemma decode_picked (blobs : list bytes) (idx : list Z) (picked : list bytes) :
  Forall2 (fun i b => 0 <= i /\ blobs !! Z.to_nat i = Some b) idx picked ->
  rmapM (fun idx =>
           rbind (Loader.format_08d idx) (fun name =>
           rbind (Loader.h5_get (clip_of blobs) name) imread)) (map Loader.PInt idx)
  = rmapM imread picked.
Proof.
  induction 1 as [|i b idx picked [Hi Hb] _ IH]; [reflexivity|].
  cbn [map rmapM Loader.format_08d rbind]. unfold Loader.h5_get at 1.
  rewrite clip_of_lookup, Hb by exact Hi. cbn [rbind]. by rewrite IH.
Qed.

(** X17: with no subsampling and no crop the loader gives back the frames
    of a clip that was written under the keys of the positions 0, 1, 2,
    ...: all of them, decoded one by one in the order they were written,
    with the label of the annotation. *)
Theorem getitem_reads_whole_clip (self : Loader.VideoDataset) (index : Z)
    (a : Annotation) (blobs : list bytes) :
  Loader.num_frames_per_clip self = 0 ->
  Loader.crop_size self = 0 ->
  Py.index (Loader.annotation self) index = Ok a ->
  Loader.database self !! Py.fmt08d index = Some (clip_of blobs) ->
  Loader.getitem imread np_array shape randint crop self index
  = rbind (rmapM imread blobs) (fun imgs => Ok (np_array imgs, label a)).
Proof.
  intros Hn Hcrop Ha Hclip. unfold Loader.getitem, Loader.h5_get at 1, Loader.frame_index.
  rewrite Ha, Hclip, Hn, Hcrop. cbn [rbind Z.eqb negb].
  rewrite clip_of_size, (decode_picked blobs _ blobs) by apply range_positions.
  by destruct (rmapM imread blobs).
Qed.


(** X19: when the loader returns a cropped clip, the window was drawn
    inside the decoded frames, and strictly so: its lower and right edges
    [y2] and [x2] stay below [h] and [w], so the last row and the last
    column of the frames are never part of a crop and the crop size must
    be smaller than both sides of the frames. *)
Theorem crop_window_inside_frame (self : Loader.VideoDataset) (index : Z)
    (v : ndarray) (l : string) :
  randint_contract randint ->
  Loader.crop_size self <> 0 ->
  Loader.getitem imread np_array shape randint crop self index = Ok (v, l) ->
  exists imgs t h w c y1 x1,
    shape (np_array imgs) = [t; h; w; c] /\
    v = crop (np_array imgs) y1 (y1 + Loader.crop_size self) x1 (x1 + Loader.crop_size self) /\
    0 <= y1 /\ y1 + Loader.crop_size self < h /\
    0 <= x1 /\ x1 + Loader.crop_size self < w.
Proof.
  intros Hrand Hcrop. unfold Loader.getitem.
  destruct (Py.index (Loader.annotation self) index) as [a|]; [|discriminate].
  cbn [rbind].
  destruct (Loader.h5_get (Loader.database self) (Py.fmt08d index)) as [clip|];
    [|discriminate].
  cbn [rbind].
  destruct (rmapM _ (Loader.frame_index self (Z.of_nat (size clip)))) as [imgs|];
    [|discriminate].
  cbn [rbind].
  destruct (Z.eqb_spec (Loader.crop_size self) 0) as [|_]; [contradiction|]. cbn [negb].
  destruct (shape (np_array imgs)) as [|t [|h [|w [|c [|]]]]] eqn:Hshape; try discriminate.
  destruct (randint 0 (h - Loader.crop_size self - 1)) as [y1|] eqn:Hy; [|discriminate].
  cbn [rbind].
  destruct (randint 0 (w - Loader.crop_size self - 1)) as [x1|] eqn:Hx; [|discriminate].
  cbn [rbind]. intros [= <- _].
  apply Hrand in Hy, Hx.
  exists imgs, t, h, w, c, y1, x1.
  repeat split; first [exact Hshape | reflexivity | lia].
Qed.

(** X20: a crop that is as large as the decoded frames in height or in
    width, or larger, makes the indexed lookup fail for every index. *)
Theorem crop_of_frame_size_fails (self : Loader.VideoDataset) (index : Z) :
  randint_contract randint ->
  Loader.crop_size self <> 0 ->
  (forall arr t h w c, shape arr = [t; h; w; c] ->
     h <= Loader.crop_size self \/ w <= Loader.crop_size self) ->
  exists e, Loader.getitem imread np_array shape randint crop self index = Raise e.
Proof.
  intros Hrand Hcrop Hsmall.
  destruct (Loader.getitem imread np_array shape randint crop self index)
    as [[v l]|e] eqn:Hget; [|by exists e].
  exfalso. revert Hget. unfold Loader.getitem.
  destruct (Py.index (Loader.annotation self) index) as [a|]; [|discriminate].
  cbn [rbind].
  destruct (Loader.h5_get (Loader.database self) (Py.fmt08d index)) as [clip|];
    [|discriminate].
  cbn [rbind].
  destruct (rmapM _ (Loader.frame_index self (Z.of_nat (size clip)))) as [imgs|];
    [|discriminate].
  cbn [rbind].
  destruct (Z.eqb_spec (Loader.crop_size self) 0) as [|_]; [contradiction|]. cbn [negb].
  destruct (shape (np_array imgs)) as [|t [|h [|w [|c [|]]]]] eqn:Hshape; try discriminate.
  destruct (randint 0 (h - Loader.crop_size self - 1)) as [y1|] eqn:Hy; [|discriminate].
  cbn [rbind].
  destruct (randint 0 (w - Loader.crop_size self - 1)) as [x1|] eqn:Hx; [|discriminate].
  apply Hrand in Hy, Hx. destruct (Hsmall _ _ _ _ _ Hshape); lia.
Qed.

End LoaderFacts.

Lemma randint_low_contract : randint_contract randint_low.
Proof.
  intros a b r. unfold randint_low.
  destruct (Z.ltb_spec b a); [discriminate|]. intros [= <-]. lia.
Qed.

Lemma getitem_reads_whole_clip_witness :
  let blobs := [Sim.blob 6; Sim.blob 7; Sim.blob 8] in
  Loader.getitem (fun b => Ok b) (fun l => l) (fun _ => [3; 120; 160; 3]) randint_low
    (fun l _ _ _ _ => l) (stored_clip 0 0 blobs) 0
  = rbind (rmapM (fun b => Ok b) blobs)
          (fun imgs => Ok (imgs, label (Sim.video "/data/c/other.mp4"))).
Proof.
  apply (getitem_reads_whole_clip (fun b => Ok b) (fun l => l) (fun _ => [3; 120; 160; 3])
           randint_low (fun l _ _ _ _ => l)
           (stored_clip 0 0 [Sim.blob 6; Sim.blob 7; Sim.blob 8]) 0);
    reflexivity.
Defined.


Lemma crop_window_inside_frame_witness :
  let self := stored_clip 0 100 [Sim.blob 6; Sim.blob 7; Sim.blob 8] in
  exists imgs t h w c y1 x1,
    [3; 120; 160; 3] = [t; h; w; c] /\
    (@nil bytes) = (fun (l : list bytes) (_ _ _ _ : Z) => @nil bytes) imgs y1 (y1 + 100) x1 (x1 + 100) /\
    0 <= y1 /\ y1 + Loader.crop_size self < h /\
    0 <= x1 /\ x1 + Loader.crop_size self < w.
Proof.
  apply (crop_window_inside_frame (fun b => Ok b) (fun l : list bytes => l)
           (fun _ => [3; 120; 160; 3]) randint_low (fun _ _ _ _ _ => @nil bytes)
           (stored_clip 0 100 [Sim.blob 6; Sim.blob 7; Sim.blob 8]) 0 [] "0");
    [apply randint_low_contract | discriminate | reflexivity].
Defined.

Lemma crop_of_frame_size_fails_witness :
  exists e,
    Loader.getitem (fun b => Ok b) (fun l : list bytes => l) (fun _ => [3; 160; 160; 3])
      randint_low (fun l _ _ _ _ => l)
      (stored_clip 0 160 [Sim.blob 6; Sim.blob 7; Sim.blob 8]) 0 = Raise e.
Proof.
  apply (crop_of_frame_size_fails (fun b => Ok b) (fun l : list bytes => l)
           (fun _ => [3; 160; 160; 3]) randint_low (fun l _ _ _ _ => l)
           (stored_clip 0 160 [Sim.blob 6; Sim.blob 7; Sim.blob 8]) 0);
    [apply randint_low_contract | discriminate |].
  intros arr t h w c [= _ <- <- _]. cbn. lia.
Defined.

(** ** The files that [process] opens *)

Lemma join_listed (tmp : Path) (c : string) :
  is_abs tmp = true \/ comps tmp = [] ->
  Pathlib.join tmp (Pathlib.join tmp {| is_abs := false; comps := [c] |})
  = Pathlib.join tmp {| is_abs := false; comps := [c] |}.
Proof.
  unfold Pathlib.join. cbn [is_abs comps].
  intros [Habs|Hnil]; [by rewrite Habs|].
  destruct (is_abs tmp); [reflexivity|]. by rewrite Hnil.
Qed.

Lemma join_listed_doubles (tmp : Path) (c c' : string) :
  is_abs tmp = false -> comps tmp <> [] ->
  Pathlib.join tmp (Pathlib.join tmp {| is_abs := false; comps := [c] |})
  <> Pathlib.join tmp {| is_abs := false; comps := [c'] |}.
Proof.
  unfold Pathlib.join. cbn [is_abs comps]. intros Habs Hne. rewrite Habs.
  intros [= Heq]. apply (f_equal (@length _)) in Heq.
  rewrite !length_app in Heq. destruct (comps tmp); [done|]. cbn in Heq. lia.
Qed.

Section FrameReads.

Context {St : Type}.
Variable handle : forall X, op X -> St -> St * result X.
Variable args : Args.

Lemma exec_put_reads (frame_db : Storage) (k : string) (v : db_value) (s : St) :
  read_paths (exec handle (put frame_db k v) s).1.2 = [].
Proof. destruct frame_db; unfold put; by rewrite exec_call. Qed.

Lemma exec_write_loop_reads (video_ith : Z) (tmp : Path) (frame_db : Storage)
    (files : list frame) (start : Z) (s : St) :
  exists k, (k <= length files)%nat /\
    read_paths (exec handle
      (for_each (enumerate_from start files) (fun '(frame_ith, (frame_id, frame_path)) =>
         let key := frame_key video_ith frame_ith in
         pbind (call (ReadFile (Pathlib.join tmp frame_path))) (fun b =>
           put frame_db key (match db_type args with LMDB => VBytes b | HDF5 => VVoid b end))))
      s).1.2
    = map (fun f : frame => Pathlib.join tmp f.2) (take k files).
Proof.
  revert start s.
  induction files as [|[frame_id frame_path] rest IH]; intros start s.
  { exists 0%nat. split; [cbn; lia|reflexivity]. }
  cbn [enumerate_from for_each length].
  rewrite exec_bind, exec_bind, exec_call.
  destruct (handle bytes _ s) as [s1 [b|e]]; cbn [fst snd].
  2:{ exists 1%nat. split; [lia|reflexivity]. }
  match goal with |- context [exec handle (put ?d ?k ?v) s1] =>
    pose proof (exec_put_reads d k v s1) as Hput;
    destruct (exec handle (put d k v) s1) as [[s2 tr2] [[]|e]]
  end; cbn [fst snd] in Hput.
  2:{ exists 1%nat. split; [lia|]. cbn [fst snd]. unfold read_paths in *.
      cbn [app omap list_omap read_path]. rewrite Hput. reflexivity. }
  destruct (IH (start + 1) s2) as (k & Hk & Hreads).
  destruct (exec handle (for_each _ _) s2) as [[s3 tr3] r3].
  exists (S k). split; [lia|]. cbn [fst snd] in *. unfold read_paths in *.
  cbn [app omap list_omap read_path]. rewrite !omap_app, Hput, Hreads. reflexivity.
Qed.

(** X21: the files that the write loop of [process] opens are the listed
    frame files joined once more to the working directory, a leading part
    of the list in its order.  With an absolute working directory these
    are the listed files themselves; with a relative, non-empty one none
    of the opened paths is a listed file. *)
Theorem frames_reopened_under_tmp (video_ith : Z) (tmp : Path) (frame_db : Storage)
    (files : list frame) (s : St) :
  Forall (listed_under tmp) files ->
  let tr := (exec handle (write_frames args video_ith tmp frame_db files) s).1.2 in
  exists k, (k <= length files)%nat /\
    read_paths tr = map (fun f : frame => Pathlib.join tmp f.2) (take k files) /\
    (is_abs tmp = true \/ comps tmp = [] -> read_paths tr = map snd (take k files)) /\
    (is_abs tmp = false -> comps tmp <> [] ->
     Forall (fun p => p ∉ map snd files) (read_paths tr)).
Proof.
  intros Hlisted tr.
  destruct (exec_write_loop_reads video_ith tmp frame_db files 0 s) as (k & Hk & Hreads).
  assert (Htr : read_paths tr = map (fun f : frame => Pathlib.join tmp f.2) (take k files))
    by exact Hreads.
  exists k. rewrite Htr. split; [exact Hk|]. split; [reflexivity|]. split.
  - intros Htmp. apply map_ext_in. intros f Hf%list_elem_of_In.
    apply (subseteq_take k files) in Hf.
    rewrite Forall_forall in Hlisted. destruct (Hlisted f Hf) as [c ->].
    by apply join_listed.
  - intros Habs Hne. rewrite Forall_map. apply Forall_forall.
    intros f Hf Hin. apply (subseteq_take k files) in Hf.
    rewrite Forall_forall in Hlisted. destruct (Hlisted f Hf) as [c Hc].
    apply list_elem_of_fmap in Hin as (g & Hg & Hgin).
    destruct (Hlisted g Hgin) as [c' Hc']. cbn in Hg. rewrite Hc, Hc' in Hg.
    by apply join_listed_doubles in Hg.
Qed.

End FrameReads.

Lemma frames_reopened_under_tmp_witness :
  let tmp := Pathlib.of_str "scratch/clip.mp4" in
  let files : list frame := [(1, Pathlib.of_str "scratch/clip.mp4/00000001.jpg")] in
  let tr := (exec Sim.handle
               (write_frames (Sim.args0 "scratch" 0 "" 0) 0 tmp HDF5Storage files)
               Sim.world0).1.2 in
  exists k, (k <= length files)%nat /\
    read_paths tr = map (fun f : frame => Pathlib.join tmp f.2) (take k files) /\
    (is_abs tmp = true \/ comps tmp = [] -> read_paths tr = map snd (take k files)) /\
    (is_abs tmp = false -> comps tmp <> [] ->
     Forall (fun p => p ∉ map snd files) (read_paths tr)).
Proof.
  apply (frames_reopened_under_tmp Sim.handle (Sim.args0 "scratch" 0 "" 0) 0
           (Pathlib.of_str "scratch/clip.mp4") HDF5Storage
           [(1, Pathlib.of_str "scratch/clip.mp4/00000001.jpg")] Sim.world0).
  constructor; [by exists "00000001.jpg"|constructor].
Defined.
